(** * config: resolution of the certificate topology of mongodb-tls-certs

    A shallow embedding of [src/config/config.go] (package [config]) and the
    properties of [GetConfig] that the specification states.

    Modelling conventions.
    - Go [string] is [string]; Go [int] is [Z]; a Go [map[string]V] is a
      [gmap string V].  A map that may be [nil] and is tested against [nil]
      by the code ([Directories], [Extensions]) is an [option] of a map.
    - The order in which [range] visits a Go map is not specified and differs
      from one loop to the next.  Every [range] loop of [GetConfig] therefore
      takes the list of keys in the order of the visit as an argument
      ([RangeOrder]); the properties are stated for every order that
      enumerates the keys of the map once ([rangesOver]).
    - [Config.Certificates] is a [map[string]*Cert].  The decoder allocates
      one cell per key, so the cells are addressed by their key: the map
      from names to cells is the store, an assignment through [cert] is an
      update of the store at [certName], and the pointer [IssuerCert] is
      [Some k] (the cell of key [k]) or [None] ([nil]).  Every entry is
      taken to hold a cell (no [nil] entry).
    - [Config] is a package-level variable: [GetConfig] is a function from
      the value of [Config] before the call to its value after the call
      together with the returned [error] ([None] is [nil]).
    - [os.ReadFile] and [yaml.Unmarshal] are library calls: what they
      return in a run, and what [Unmarshal] left in [Config], is an argument
      of [GetConfig] ([Loaded]).
    - The fields [PrivateKey] and [Certificate] of [Cert] are neither read
      nor written by this package and are left out. *)

From Stdlib Require Import ZArith.
From stdpp Require Import gmap strings list fin_maps.

(** ** Constants *)

(** defaults for directories and extensions *)
Definition defaultPublicDirectory : string := "tls".
Definition defaultPrivateDirectory : string := "tls/private".
Definition defaultExtensionKey : string := "key".
Definition defaultExtensionCert : string := "pem".

(** Certificate types as enums ([iota]) *)
Definition RootCACert : Z := 0.
Definition IntermediateCACert : Z := 1.
Definition OCSPSigningCert : Z := 2.
Definition ServerCert : Z := 3.
Definition ClientCert : Z := 4.

(** information about a certificate *)
Record certInfo := mkCertInfo {
  ctype : Z;            (* certificate type *)
  isCA : bool;          (* is it a CA? *)
  isSelfSigned : bool   (* is it self-signed? *)
}.

(** ** Errors

    One constructor for each [fmt.Errorf] of the package, carrying the
    arguments in the order in which the call passes them; [Error] renders
    the message of the format string. *)
Inductive error : Type :=
| DocumentReadError (configFilename err : string)
| DocumentParseError (configFilename err : string)
| UnrecognizedDirectoryKey (dirName configFilename : string)
| UnrecognizedExtensionKey (extName ext : string)
| InvalidTypeString (typeString : string)
| InvalidCertificateType (certName typeString : string)
| SelfSignedWithIssuer (certName : string)
| MissingIssuer (certName issuer : string)
| IssuerNotAuthority (certName issuer : string).

Definition Error (e : error) : string :=
  match e with
  | DocumentReadError configFilename err =>
      "error reading config file '" +:+ configFilename +:+ "': " +:+ err
  | DocumentParseError configFilename err =>
      "error parsing YAML config file '" +:+ configFilename +:+ "': " +:+ err
  | UnrecognizedDirectoryKey dirName configFilename =>
      "invalid entry " +:+ dirName +:+
      " in directories section of config file " +:+ configFilename
  | UnrecognizedExtensionKey extName ext =>
      "invalid entry " +:+ extName +:+
      " in extensions section of config file " +:+ ext
  | InvalidTypeString typeString =>
      "invalid certificate type '" +:+ typeString +:+ "'"
  | InvalidCertificateType certName typeString =>
      "invalid type " +:+ certName +:+ " for certificate " +:+ typeString
  | SelfSignedWithIssuer certName =>
      "self-signed certificate " +:+ certName +:+ " must not have issuer"
  | MissingIssuer certName issuer =>
      "certificate " +:+ certName +:+ " has missing issuer " +:+ issuer
  | IssuerNotAuthority certName issuer =>
      "certificate " +:+ certName +:+ " has issuer " +:+ issuer +:+
      " that is not a CA"
  end.

(** An error names [s] when its message contains [s]. *)
Definition names (e : error) (s : string) : Prop :=
  ∃ before after, Error e = before +:+ s +:+ after.

(** ** getCertType *)

Definition theMap : gmap string certInfo :=
  list_to_map
    [ ("rootCA", mkCertInfo RootCACert true true);
      ("intermediateCA", mkCertInfo IntermediateCACert true false);
      ("OCSPSigning", mkCertInfo OCSPSigningCert false false);
      ("server", mkCertInfo ServerCert false false);
      ("client", mkCertInfo ClientCert false false) ].

(** getCertType converts a type string to information about the kind of
    certificate it is *)
Definition getCertType (typeString : string) : certInfo + error :=
  match theMap !! typeString with
  | Some certType => inl certType
  | None => inr (InvalidTypeString typeString)
  end.

(** ** The structures *)

Module SubjectType.
Record t := mk { O : string; OU : string; CN : string }.
End SubjectType.

Module Cert.
Record t := mk {
  (* Filled in by YAML unmarshalling *)
  TypeString : string;
  Issuer : string;
  Subject : SubjectType.t;
  Hosts : list string;
  (* Created programmatically *)
  Type_ : Z;
  IsCA : bool;
  IsSelfSigned : bool;
  IssuerCert : option string
}.

Definition setInfo (certType : certInfo) (c : t) : t :=
  mk (TypeString c) (Issuer c) (Subject c) (Hosts c)
     (ctype certType) (isCA certType) (isSelfSigned certType) (IssuerCert c).

Definition setSubject (s : SubjectType.t) (c : t) : t :=
  mk (TypeString c) (Issuer c) s (Hosts c)
     (Type_ c) (IsCA c) (IsSelfSigned c) (IssuerCert c).

Definition setIssuerCert (p : option string) (c : t) : t :=
  mk (TypeString c) (Issuer c) (Subject c) (Hosts c)
     (Type_ c) (IsCA c) (IsSelfSigned c) p.
End Cert.

Module ConfigType.
Record t := mk {
  (* filled in by YAML unmarshalling *)
  Directories : option (gmap string string);
  Extensions : option (gmap string string);
  Subject : SubjectType.t;
  KeyFiles : list string;
  Certificates : gmap string Cert.t;
  Combos : gmap string (list string);
  (* filled in programmatically *)
  PublicDirectory : string;
  PrivateDirectory : string;
  ExtensionKey : string;
  ExtensionCert : string
}.

Definition setPublicDirectory (dir : string) (c : t) : t :=
  mk (Directories c) (Extensions c) (Subject c) (KeyFiles c) (Certificates c)
     (Combos c) dir (PrivateDirectory c) (ExtensionKey c) (ExtensionCert c).

Definition setPrivateDirectory (dir : string) (c : t) : t :=
  mk (Directories c) (Extensions c) (Subject c) (KeyFiles c) (Certificates c)
     (Combos c) (PublicDirectory c) dir (ExtensionKey c) (ExtensionCert c).

Definition setExtensionKey (ext : string) (c : t) : t :=
  mk (Directories c) (Extensions c) (Subject c) (KeyFiles c) (Certificates c)
     (Combos c) (PublicDirectory c) (PrivateDirectory c) ext (ExtensionCert c).

Definition setExtensionCert (ext : string) (c : t) : t :=
  mk (Directories c) (Extensions c) (Subject c) (KeyFiles c) (Certificates c)
     (Combos c) (PublicDirectory c) (PrivateDirectory c) (ExtensionKey c) ext.

(** an assignment through the pointer stored at [certName] *)
Definition store (certName : string) (cert : Cert.t) (c : t) : t :=
  mk (Directories c) (Extensions c) (Subject c) (KeyFiles c)
     (<[certName := cert]> (Certificates c))
     (Combos c) (PublicDirectory c) (PrivateDirectory c) (ExtensionKey c)
     (ExtensionCert c).

(** the zero value of the structure: [Config] when the program starts *)
Definition zero : t :=
  mk None None (SubjectType.mk EmptyString EmptyString EmptyString) [] ∅ ∅
     EmptyString EmptyString EmptyString EmptyString.
End ConfigType.

(** ** Statements that update [Config] and may return an error *)

Definition stmt : Type := ConfigType.t → ConfigType.t * option error.

Definition skip : stmt := λ Config, (Config, None).
Definition assign (f : ConfigType.t → ConfigType.t) : stmt :=
  λ Config, (f Config, None).
Definition returnErr (e : error) : stmt := λ Config, (Config, Some e).

(** [s1 >> s2]: run [s2] unless [s1] returned an error *)
Definition andThen (s1 s2 : stmt) : stmt :=
  λ Config,
    match s1 Config with
    | (Config', None) => s2 Config'
    | (Config', Some e) => (Config', Some e)
    end.
Infix ">>" := andThen (at level 80, right associativity).

(** [for k, v := range m { body }], the keys visited in the order [keys];
    [m] is read from [Config] at each visit *)
Fixpoint forRange {V : Type} (m : ConfigType.t → gmap string V)
    (body : string → V → stmt) (keys : list string) : stmt :=
  match keys with
  | [] => skip
  | k :: keys' =>
      (λ Config,
        match m Config !! k with
        | Some v => body k v Config
        | None => skip Config
        end) >> forRange m body keys'
  end.

(** [keys] is an order in which [range] can visit [m] *)
Definition rangesOver {V : Type} (keys : list string) (m : gmap string V) : Prop :=
  NoDup keys ∧ dom m = list_to_set keys.

(** ** GetConfig *)

(** What the two library calls of a run return: [os.ReadFile] fails; or it
    succeeds and [yaml.Unmarshal] fails, leaving [Config] as [cfg]; or both
    succeed and [Unmarshal] has decoded the document into [Config], now
    [cfg]. *)
Inductive Loaded : Type :=
| ReadFailed (err : string)
| ParseFailed (cfg : ConfigType.t) (err : string)
| Parsed (cfg : ConfigType.t).

(** The order of the visit of each of the four [range] loops. *)
Record RangeOrder := mkOrder {
  inDirectories : list string;
  inExtensions : list string;
  inCertificates1 : list string;
  inCertificates2 : list string
}.

(** lines 108-121 *)
Definition directoriesCase (configFilename dirName dir : string) : stmt :=
  if decide (dirName = "public") then
    assign (ConfigType.setPublicDirectory dir)
  else if decide (dirName = "private") then
    assign (ConfigType.setPrivateDirectory dir)
  else
    returnErr (UnrecognizedDirectoryKey dirName configFilename).

Definition resolveDirectories (configFilename : string) (keys : list string) : stmt :=
  assign (ConfigType.setPublicDirectory defaultPublicDirectory) >>
  assign (ConfigType.setPrivateDirectory defaultPrivateDirectory) >>
  λ Config,
    match ConfigType.Directories Config with
    | Some _ =>
        forRange (λ c, default ∅ (ConfigType.Directories c))
                 (directoriesCase configFilename) keys Config
    | None => skip Config
    end.

(** lines 123-136 *)
Definition extensionsCase (extName ext : string) : stmt :=
  if decide (extName = "key") then
    assign (ConfigType.setExtensionKey ext)
  else if decide (extName = "certificate") then
    assign (ConfigType.setExtensionCert ext)
  else
    returnErr (UnrecognizedExtensionKey extName ext).

Definition resolveExtensions (keys : list string) : stmt :=
  assign (ConfigType.setExtensionKey defaultExtensionKey) >>
  assign (ConfigType.setExtensionCert defaultExtensionCert) >>
  λ Config,
    match ConfigType.Extensions Config with
    | Some _ =>
        forRange (λ c, default ∅ (ConfigType.Extensions c))
                 extensionsCase keys Config
    | None => skip Config
    end.

(** lines 152-160: fill in default subject fields *)
Definition fillSubject (spec fallback : SubjectType.t) : SubjectType.t :=
  SubjectType.mk
    (if decide (SubjectType.O spec = EmptyString)
     then SubjectType.O fallback else SubjectType.O spec)
    (if decide (SubjectType.OU spec = EmptyString)
     then SubjectType.OU fallback else SubjectType.OU spec)
    (if decide (SubjectType.CN spec = EmptyString)
     then SubjectType.CN fallback else SubjectType.CN spec).

(** lines 149-160: what the first loop stores in the cell of a certificate
    of a recognized type *)
Definition fillCert (certType : certInfo) (fallback : SubjectType.t)
    (cert : Cert.t) : Cert.t :=
  let cert := Cert.setInfo certType cert in
  Cert.setSubject (fillSubject (Cert.Subject cert) fallback) cert.

(** lines 144-161: the body of the first loop over the certificates *)
Definition typeAndSubject (certName : string) (cert : Cert.t) : stmt :=
  λ Config,
    match getCertType (Cert.TypeString cert) with
    | inr _ =>
        returnErr (InvalidCertificateType certName (Cert.TypeString cert)) Config
    | inl certType =>
        assign (ConfigType.store certName
                  (fillCert certType (ConfigType.Subject Config) cert)) Config
    end.

(** lines 162-178: the body of the second loop over the certificates.
    [found] is the cell that the lookup of the issuer name reaches, if any,
    and [issuerCert] the pointer to it; the assignment of line 169 writes
    [IssuerCert] only, so that [IsCA] read through the pointer at line 173 is
    the one of [found] also when the certificate names itself as issuer. *)
Definition linkIssuer (certName : string) (cert : Cert.t) : stmt :=
  λ Config,
    if Cert.IsSelfSigned cert then
      if decide (Cert.Issuer cert ≠ EmptyString) then
        returnErr (SelfSignedWithIssuer certName) Config
      else skip Config
    else
      let found := ConfigType.Certificates Config !! Cert.Issuer cert in
      let issuerCert :=
        match found with Some _ => Some (Cert.Issuer cert) | None => None end in
      (assign (ConfigType.store certName (Cert.setIssuerCert issuerCert cert)) >>
       match found with
       | None => returnErr (MissingIssuer certName (Cert.Issuer cert))
       | Some issuer =>
           if negb (Cert.IsCA issuer) then
             returnErr (IssuerNotAuthority certName (Cert.Issuer cert))
           else skip
       end) Config.

(** GetConfig is responsible for parsing the YAML file and filling in the
    global variable Config *)
Definition GetConfig (configFilename : string) (io : Loaded)
    (order : RangeOrder) : stmt :=
  λ Config,
    match io with
    | ReadFailed err => (Config, Some (DocumentReadError configFilename err))
    | ParseFailed cfg err => (cfg, Some (DocumentParseError configFilename err))
    | Parsed cfg =>
        (resolveDirectories configFilename (inDirectories order) >>
         resolveExtensions (inExtensions order) >>
         forRange ConfigType.Certificates typeAndSubject (inCertificates1 order) >>
         forRange ConfigType.Certificates linkIssuer (inCertificates2 order)) cfg
    end.

(** ** Documents used in the examples *)

Definition noSubject : SubjectType.t :=
  SubjectType.mk EmptyString EmptyString EmptyString.

(** a certificate entry as decoded: the computed fields hold zero values *)
Definition decodedCert (typeString issuer : string) : Cert.t :=
  Cert.mk typeString issuer noSubject [] 0 false false None.

(** [Config] after the decoding of a document into the zero value *)
Definition document (directories extensions : option (gmap string string))
    (certificates : list (string * Cert.t)) : ConfigType.t :=
  ConfigType.mk directories extensions noSubject [] (list_to_map certificates) ∅
    EmptyString EmptyString EmptyString EmptyString.

(** Scenario A: a root authority and a server that it issues *)
Definition scenarioA : ConfigType.t :=
  document None None
    [ ("root", decodedCert "rootCA" EmptyString);
      ("server", decodedCert "server" "root") ].

(** Scenario B: the issuer of the server is a client certificate *)
Definition scenarioB : ConfigType.t :=
  document None None
    [ ("root", decodedCert "rootCA" EmptyString);
      ("client", decodedCert "client" "root");
      ("server", decodedCert "server" "client") ].

(** Scenario C: a root authority that declares an issuer *)
Definition scenarioC : ConfigType.t :=
  document None None [ ("root", decodedCert "rootCA" "other") ].

(** Scenario D: the issuer of the server is not in the document *)
Definition scenarioD : ConfigType.t :=
  document None None [ ("server", decodedCert "server" "ghost") ].

(** a server without an issuer field *)
Definition omittedIssuer : ConfigType.t :=
  document None None [ ("server", decodedCert "server" EmptyString) ].

(** two intermediate authorities, each the issuer of the other *)
Definition cycleDocument : ConfigType.t :=
  document None None
    [ ("A", decodedCert "intermediateCA" "B");
      ("B", decodedCert "intermediateCA" "A") ].

(** the documents above with a second violation that a run meets earlier *)
Definition scenarioD_badType : ConfigType.t :=
  document None None
    [ ("server", decodedCert "server" "ghost");
      ("other", decodedCert "bogus" EmptyString) ].

Definition scenarioB_badDirectory : ConfigType.t :=
  document (Some {[ "backup" := "bak" ]}) None
    [ ("root", decodedCert "rootCA" EmptyString);
      ("client", decodedCert "client" "root");
      ("server", decodedCert "server" "client") ].

Definition scenarioC_badExtension : ConfigType.t :=
  document None (Some {[ "csr" := "req" ]})
    [ ("root", decodedCert "rootCA" "other") ].

Definition omittedIssuer_badType : ConfigType.t :=
  document None None
    [ ("server", decodedCert "server" EmptyString);
      ("other", decodedCert "bogus" EmptyString) ].

(** a document with two unrecognized keys under [directories] *)
Definition twoBadDirectories : ConfigType.t :=
  document (Some {[ "backup" := "bak"; "cache" := "tmp" ]}) None [].

(** a document that overrides one directory and one extension *)
Definition someOverrides : ConfigType.t :=
  document (Some {[ "private" := "secret" ]}) (Some {[ "key" := "k" ]})
    [ ("root", decodedCert "rootCA" EmptyString) ].

(** ** What a document must satisfy for each stage of [GetConfig] to pass *)

Definition recognized (typeString : string) : Prop :=
  is_Some (theMap !! typeString).

Definition recognizedDirectory (dirName : string) : Prop :=
  dirName = "public" ∨ dirName = "private".

Definition recognizedExtension (extName : string) : Prop :=
  extName = "key" ∨ extName = "certificate".

Definition directoriesOf (d : ConfigType.t) : gmap string string :=
  default ∅ (ConfigType.Directories d).

Definition extensionsOf (d : ConfigType.t) : gmap string string :=
  default ∅ (ConfigType.Extensions d).

Definition recognizedDirectories (d : ConfigType.t) : Prop :=
  map_Forall (λ k _, recognizedDirectory k) (directoriesOf d).

Definition recognizedExtensions (d : ConfigType.t) : Prop :=
  map_Forall (λ k _, recognizedExtension k) (extensionsOf d).

Definition recognizedTypes (d : ConfigType.t) : Prop :=
  map_Forall (λ _ cert, recognized (Cert.TypeString cert))
             (ConfigType.Certificates d).

(** the cell of a certificate once the first loop has visited it *)
Definition resolvedCert (fallback : SubjectType.t) (cert : Cert.t) : Cert.t :=
  match getCertType (Cert.TypeString cert) with
  | inl certType => fillCert certType fallback cert
  | inr _ => cert
  end.

(** the store once the first loop has visited every certificate *)
Definition resolvedCertificates (d : ConfigType.t) : gmap string Cert.t :=
  resolvedCert (ConfigType.Subject d) <$> ConfigType.Certificates d.

(** the outcome of the checks of the second loop for one certificate *)
Definition issuerCheck (certs : gmap string Cert.t) (certName : string)
    (cert : Cert.t) : option error :=
  if Cert.IsSelfSigned cert then
    if decide (Cert.Issuer cert ≠ EmptyString)
    then Some (SelfSignedWithIssuer certName) else None
  else
    match certs !! Cert.Issuer cert with
    | None => Some (MissingIssuer certName (Cert.Issuer cert))
    | Some issuer =>
        if negb (Cert.IsCA issuer)
        then Some (IssuerNotAuthority certName (Cert.Issuer cert)) else None
    end.

(** the first error that the checks meet along [keys] *)
Fixpoint firstFailure (certs : gmap string Cert.t) (keys : list string)
    : option error :=
  match keys with
  | [] => None
  | k :: keys' =>
      match certs !! k with
      | Some cert =>
          match issuerCheck certs k cert with
          | Some e => Some e
          | None => firstFailure certs keys'
          end
      | None => firstFailure certs keys'
      end
  end.

Definition allEdgesPass (certs : gmap string Cert.t) : Prop :=
  map_Forall (λ k cert, issuerCheck certs k cert = None) certs.

(** [order] gives, for each loop, an order in which [range] can visit the
    map of the document [d] *)
Definition validOrder (order : RangeOrder) (d : ConfigType.t) : Prop :=
  rangesOver (inDirectories order) (directoriesOf d) ∧
  rangesOver (inExtensions order) (extensionsOf d) ∧
  rangesOver (inCertificates1 order) (ConfigType.Certificates d) ∧
  rangesOver (inCertificates2 order) (ConfigType.Certificates d).

(** the check of [certName] is the first one to fail in a run on [d]: the
    sections and the types are recognized, and the certificates that the
    second loop visits before [certName] pass their checks *)
Definition reachedFirst (d : ConfigType.t) (order : RangeOrder)
    (certName : string) : Prop :=
  recognizedDirectories d ∧ recognizedExtensions d ∧ recognizedTypes d ∧
  ∃ before after,
    inCertificates2 order = before ++ certName :: after ∧
    firstFailure (resolvedCertificates d) before = None.

(** the part of a certificate and of [Config] that the decoder fills in and
    [GetConfig] only reads; the subject of a certificate, which lines
    152-160 fill in, is not part of it *)
Definition decodedPart (cert : Cert.t) : string * string * list string :=
  (Cert.TypeString cert, Cert.Issuer cert, Cert.Hosts cert).

Definition decodedDocument (c : ConfigType.t) :=
  (ConfigType.Directories c, ConfigType.Extensions c, ConfigType.Subject c,
   ConfigType.KeyFiles c, ConfigType.Combos c,
   decodedPart <$> ConfigType.Certificates c).

(** a certificate without its pointer to the issuer *)
Definition unlinked (cert : Cert.t) : Cert.t := Cert.setIssuerCert None cert.

(** a statement leaves the projection [f] of [Config] as it is *)
Definition preserves {A : Type} (f : ConfigType.t → A) (s : stmt) : Prop :=
  ∀ Config, f (s Config).1 = f Config.

(** the shape that the two [switch] statements share: two known keys, each
    with the field it sets, and the error of the [default] case *)
Definition overrideCase (a b : string)
    (setA setB : string → ConfigType.t → ConfigType.t)
    (unrecognized : string → string → error) (k v : string) : stmt :=
  if decide (k = a) then assign (setA v)
  else if decide (k = b) then assign (setB v)
  else returnErr (unrecognized k v).

(** the value of a field after a loop over [keys] that sets it at key [x] *)
Definition overridden (keys : list string) (m : gmap string string)
    (x old : string) : string :=
  if decide (x ∈ keys) then default old (m !! x) else old.

(** the cell of [k], when its certificate is not self-signed, points to the
    cell that its issuer name reaches, and that cell is one of an authority *)
Definition linked (certs : gmap string Cert.t) (k : string) : Prop :=
  ∀ cert, certs !! k = Some cert → Cert.IsSelfSigned cert = false →
    Cert.IssuerCert cert = Some (Cert.Issuer cert) ∧
    ∃ issuer, certs !! Cert.Issuer cert = Some issuer ∧ Cert.IsCA issuer = true.

(** what a run that passed the first three stages leaves in [Config] *)
Definition resolvedUpTo (d Config' : ConfigType.t) : Prop :=
  unlinked <$> ConfigType.Certificates Config' =
    unlinked <$> resolvedCertificates d ∧
  ConfigType.PublicDirectory Config' =
    default defaultPublicDirectory (directoriesOf d !! "public") ∧
  ConfigType.PrivateDirectory Config' =
    default defaultPrivateDirectory (directoriesOf d !! "private") ∧
  ConfigType.ExtensionKey Config' =
    default defaultExtensionKey (extensionsOf d !! "key") ∧
  ConfigType.ExtensionCert Config' =
    default defaultExtensionCert (extensionsOf d !! "certificate").

(** [k] is a key of [directories] or of [extensions] that the [switch] of
    its loop does not know *)
Definition unrecognizedKey (d : ConfigType.t) (k : string) : Prop :=
  (is_Some (directoriesOf d !! k) ∧ ¬ recognizedDirectory k) ∨
  (is_Some (extensionsOf d !! k) ∧ ¬ recognizedExtension k).

(** a decidable test for [names] *)
Fixpoint startsWith (s t : string) : bool :=
  match s, t with
  | EmptyString, _ => true
  | String a s', String b t' => bool_decide (a = b) && startsWith s' t'
  | String _ _, EmptyString => false
  end.

Fixpoint contains (s t : string) : bool :=
  startsWith s t ||
  match t with
  | EmptyString => false
  | String _ t' => contains s t'
  end.

#[global] Instance error_eq_dec : EqDecision error.
Proof. solve_decision. Defined.

#[global] Instance recognized_dec typeString : Decision (recognized typeString).
Proof. unfold recognized. apply _. Defined.

#[global] Instance recognizedDirectory_dec k : Decision (recognizedDirectory k).
Proof. unfold recognizedDirectory. apply _. Defined.

#[global] Instance recognizedExtension_dec k : Decision (recognizedExtension k).
Proof. unfold recognizedExtension. apply _. Defined.

#[global] Instance recognizedDirectories_dec d : Decision (recognizedDirectories d).
Proof. unfold recognizedDirectories. apply _. Defined.

#[global] Instance recognizedExtensions_dec d : Decision (recognizedExtensions d).
Proof. unfold recognizedExtensions. apply _. Defined.

#[global] Instance recognizedTypes_dec d : Decision (recognizedTypes d).
Proof. unfold recognizedTypes. apply _. Defined.

#[global] Instance allEdgesPass_dec certs : Decision (allEdgesPass certs).
Proof. unfold allEdgesPass. apply _. Defined.

(** ** The outcome of a run in closed form *)

(** [Config] after the loop over the directories has passed *)
Definition afterDirectories (d : ConfigType.t) : ConfigType.t :=
  ConfigType.setPrivateDirectory
    (default defaultPrivateDirectory (directoriesOf d !! "private"))
    (ConfigType.setPublicDirectory
       (default defaultPublicDirectory (directoriesOf d !! "public")) d).

(** [Config] after the loop over the extensions has passed as well *)
Definition afterExtensions (d : ConfigType.t) : ConfigType.t :=
  ConfigType.setExtensionCert
    (default defaultExtensionCert (extensionsOf d !! "certificate"))
    (ConfigType.setExtensionKey
       (default defaultExtensionKey (extensionsOf d !! "key"))
       (afterDirectories d)).

(** [Config] when the second loop over the certificates starts *)
Definition afterFirstLoop (d : ConfigType.t) : ConfigType.t :=
  ConfigType.mk (ConfigType.Directories d) (ConfigType.Extensions d)
    (ConfigType.Subject d) (ConfigType.KeyFiles d) (resolvedCertificates d)
    (ConfigType.Combos d)
    (default defaultPublicDirectory (directoriesOf d !! "public"))
    (default defaultPrivateDirectory (directoriesOf d !! "private"))
    (default defaultExtensionKey (extensionsOf d !! "key"))
    (default defaultExtensionCert (extensionsOf d !! "certificate")).

(** the cell of a certificate once the second loop has visited it without
    an error: line 169 for a certificate that is not self-signed *)
Definition linkedCert (cert : Cert.t) : Cert.t :=
  if Cert.IsSelfSigned cert then cert
  else Cert.setIssuerCert (Some (Cert.Issuer cert)) cert.

(** [Config] when [GetConfig] returns no error *)
Definition resolvedConfig (d : ConfigType.t) : ConfigType.t :=
  ConfigType.mk (ConfigType.Directories d) (ConfigType.Extensions d)
    (ConfigType.Subject d) (ConfigType.KeyFiles d)
    (linkedCert <$> resolvedCertificates d)
    (ConfigType.Combos d)
    (default defaultPublicDirectory (directoriesOf d !! "public"))
    (default defaultPrivateDirectory (directoriesOf d !! "private"))
    (default defaultExtensionKey (extensionsOf d !! "key"))
    (default defaultExtensionCert (extensionsOf d !! "certificate")).

(** the fields of [Config] other than the certificates *)
Definition otherFields (c : ConfigType.t) :=
  (ConfigType.Directories c, ConfigType.Extensions c, ConfigType.Subject c,
   ConfigType.KeyFiles c, ConfigType.Combos c,
   ConfigType.PublicDirectory c, ConfigType.PrivateDirectory c,
   ConfigType.ExtensionKey c, ConfigType.ExtensionCert c).


(** the kinds of error that a run on a decoded document returns *)
Definition validationError (configFilename : string) (e : error) : Prop :=
  match e with
  | UnrecognizedDirectoryKey _ f => f = configFilename
  | UnrecognizedExtensionKey _ _ | InvalidCertificateType _ _
  | SelfSignedWithIssuer _ | MissingIssuer _ _ | IssuerNotAuthority _ _ => True
  | DocumentReadError _ _ | DocumentParseError _ _ | InvalidTypeString _ => False
  end.

(** [k] is a key of one of the three maps that the loops visit *)
Definition entryOf (d : ConfigType.t) (k : string) : Prop :=
  is_Some (directoriesOf d !! k) ∨ is_Some (extensionsOf d !! k) ∨
  is_Some (ConfigType.Certificates d !! k).

(** the errors that the second loop over the certificates returns *)
Definition fromSecondLoop (e : error) : Prop :=
  match e with
  | SelfSignedWithIssuer _ | MissingIssuer _ _ | IssuerNotAuthority _ _ => True
  | _ => False
  end.

(** a document with one certificate, of an unrecognized type *)
Definition badTypeDocument : ConfigType.t :=
  document None None [ ("web", decodedCert "bogus" EmptyString) ].


(** [k] is the first key of [keys] that [known] does not hold of *)
Definition firstUnknown (known : string → Prop) (keys : list string)
    (k : string) : Prop :=
  ∃ before after,
    keys = before ++ k :: after ∧ Forall known before ∧ ¬ known k.

(** a statement keeps the property [P] of [Config], whether it returns an
    error or not *)
Definition maintains (P : ConfigType.t → Prop) (s : stmt) : Prop :=
  ∀ Config, P Config → P (s Config).1.

(** * Properties *)

(** ** Sequencing and loops *)

Lemma andThen_inv (s1 s2 : stmt) Config Config' r :
  (s1 >> s2) Config = (Config', r) →
  (∃ Config1, s1 Config = (Config1, None) ∧ s2 Config1 = (Config', r)) ∨
  (∃ e, s1 Config = (Config', Some e) ∧ r = Some e).
Proof.
  unfold andThen. destruct (s1 Config) as [Config1 [e|]]; intros H.
  - right. exists e. by simplify_eq.
  - left. by exists Config1.
Qed.

Lemma andThen_ok (s1 s2 : stmt) Config Config1 :
  s1 Config = (Config1, None) → (s1 >> s2) Config = s2 Config1.
Proof. unfold andThen. by intros ->. Qed.

Lemma andThen_err (s1 s2 : stmt) Config Config1 e :
  s1 Config = (Config1, Some e) → (s1 >> s2) Config = (Config1, Some e).
Proof. unfold andThen. by intros ->. Qed.

Lemma preserves_andThen {A} (f : ConfigType.t → A) s1 s2 :
  preserves f s1 → preserves f s2 → preserves f (s1 >> s2).
Proof.
  intros H1 H2 Config. unfold andThen.
  specialize (H1 Config). destruct (s1 Config) as [Config1 [e|]]; simpl in *.
  - done.
  - by rewrite H2.
Qed.

Section loops.
Context {V : Type}.
Variable m : ConfigType.t → gmap string V.
Variable body : string → V → stmt.

Lemma forRange_visit k keys Config v :
  m Config !! k = Some v →
  forRange m body (k :: keys) Config = (body k v >> forRange m body keys) Config.
Proof. intros Hk. simpl. unfold andThen. by rewrite Hk. Qed.

Lemma forRange_absent k keys Config :
  m Config !! k = None →
  forRange m body (k :: keys) Config = forRange m body keys Config.
Proof. intros Hk. simpl. unfold andThen. by rewrite Hk. Qed.

Lemma preserves_forRange {A} (f : ConfigType.t → A) keys :
  (∀ k v Config, m Config !! k = Some v → f (body k v Config).1 = f Config) →
  preserves f (forRange m body keys).
Proof.
  intros Hbody. induction keys as [|k keys IH]; intros Config; [done|].
  destruct (m Config !! k) as [v|] eqn:Hk.
  - rewrite (forRange_visit _ _ _ _ Hk). unfold andThen.
    specialize (Hbody k v Config Hk).
    destruct (body k v Config) as [Config1 [e|]]; simpl in *; [done|].
    by rewrite IH.
  - by rewrite (forRange_absent _ _ _ Hk).
Qed.

(** a property of [Config] that every passing visit keeps holds after a
    loop that returns no error *)
Lemma forRange_passing (P : ConfigType.t → Prop) keys :
  (∀ k v Config Config1,
     m Config !! k = Some v → body k v Config = (Config1, None) →
     P Config → P Config1) →
  ∀ Config Config',
    forRange m body keys Config = (Config', None) → P Config → P Config'.
Proof.
  intros Hbody. induction keys as [|k keys IH]; intros Config Config' Hrun HP.
  - unfold forRange, skip in Hrun. by simplify_eq.
  - destruct (m Config !! k) as [v|] eqn:Hk.
    + rewrite (forRange_visit _ _ _ _ Hk) in Hrun.
      apply andThen_inv in Hrun as [(Config1 & H1 & H2)|(e & _ & ?)]; [|done].
      eauto.
    + rewrite (forRange_absent _ _ _ Hk) in Hrun. eauto.
Qed.
End loops.

(** ** Messages *)

Lemma startsWith_append s after : startsWith s (s +:+ after) = true.
Proof.
  induction s as [|a s IH]; [done|]. simpl.
  by rewrite bool_decide_eq_true_2, IH.
Qed.

Lemma contains_append before s after :
  contains s (before +:+ s +:+ after) = true.
Proof.
  induction before as [|a before IH]; simpl.
  - destruct (s +:+ after) eqn:E; simpl; rewrite <- E.
    + by rewrite startsWith_append.
    + by rewrite startsWith_append.
  - rewrite IH. apply orb_true_r.
Qed.

Lemma names_contains e s : names e s → contains s (Error e) = true.
Proof. intros (before & after & ->). apply contains_append. Qed.

(** ** The loops over [directories] and [extensions] *)

Lemma overridden_cons k keys m x old :
  overridden (k :: keys) m x old =
  overridden keys m x (if decide (k = x) then default old (m !! x) else old).
Proof.
  unfold overridden. destruct (decide (k = x)) as [->|Hne].
  - rewrite decide_True by (apply elem_of_cons; auto).
    destruct (decide (x ∈ keys)); [|done]. by destruct (m !! x).
  - destruct (decide (x ∈ keys)).
    + by rewrite decide_True by (apply elem_of_cons; auto).
    + rewrite decide_False; [done|]. by intros [?|?]%elem_of_cons.
Qed.

Section overrides.
Variables a b : string.
Variables getA getB : ConfigType.t → string.
Variables setA setB : string → ConfigType.t → ConfigType.t.
Variable sect : ConfigType.t → gmap string string.
Variable unrecognized : string → string → error.
Hypothesis a_b : a ≠ b.
Hypothesis getA_setA : ∀ v c, getA (setA v c) = v.
Hypothesis getA_setB : ∀ v c, getA (setB v c) = getA c.
Hypothesis getB_setB : ∀ v c, getB (setB v c) = v.
Hypothesis getB_setA : ∀ v c, getB (setA v c) = getB c.
Hypothesis sect_setA : ∀ v c, sect (setA v c) = sect c.
Hypothesis sect_setB : ∀ v c, sect (setB v c) = sect c.

Let loop := forRange sect (overrideCase a b setA setB unrecognized).

Lemma override_loop keys : ∀ Config Config' r,
  loop keys Config = (Config', r) →
  match r with
  | None =>
      Forall (λ k, is_Some (sect Config !! k) → k = a ∨ k = b) keys ∧
      getA Config' = overridden keys (sect Config) a (getA Config) ∧
      getB Config' = overridden keys (sect Config) b (getB Config)
  | Some e =>
      ∃ k v, k ∈ keys ∧ sect Config !! k = Some v ∧ k ≠ a ∧ k ≠ b ∧
             e = unrecognized k v
  end.
Proof.
  unfold loop.
  induction keys as [|k keys IH]; intros Config Config' r Hrun.
  - unfold forRange, skip in Hrun. by simplify_eq.
  - destruct (sect Config !! k) as [v|] eqn:Hk.
    + rewrite (forRange_visit _ _ _ _ _ _ Hk) in Hrun.
      apply andThen_inv in Hrun as [(Config1 & H1 & H2)|(e & H1 & ->)].
      * unfold overrideCase in H1.
        assert (sect Config1 = sect Config ∧ (k = a ∨ k = b) ∧
                getA Config1 =
                  (if decide (k = a) then default (getA Config) (sect Config !! a)
                   else getA Config) ∧
                getB Config1 =
                  (if decide (k = b) then default (getB Config) (sect Config !! b)
                   else getB Config)) as (Hs & Hab & HA & HB).
        { repeat case_decide; unfold assign, returnErr in H1; simplify_eq;
            rewrite ?Hk; simpl;
            rewrite ?sect_setA, ?sect_setB, ?getA_setA, ?getA_setB,
                    ?getB_setB, ?getB_setA; eauto. }
        apply IH in H2. rewrite Hs in H2. destruct r as [e|].
        -- destruct H2 as (k' & v' & ? & ? & ? & ? & ?).
           exists k', v'. split_and!; try done. apply elem_of_cons; auto.
        -- destruct H2 as (HF & HA' & HB').
           rewrite !overridden_cons, <- HA, <- HB. auto.
      * unfold overrideCase in H1.
        repeat case_decide; unfold assign, returnErr in H1; simplify_eq.
        exists k, v. split_and!; try done. apply elem_of_cons; auto.
    + rewrite (forRange_absent _ _ _ _ _ Hk) in Hrun. apply IH in Hrun.
      destruct r as [e|].
      * destruct Hrun as (k' & v' & ? & ? & ? & ? & ?).
        exists k', v'. split_and!; try done. apply elem_of_cons; auto.
      * destruct Hrun as (HF & HA & HB).
        rewrite !overridden_cons. split_and!.
        -- constructor; [|done]. rewrite Hk. by intros [? ?].
        -- rewrite HA. by case_decide; simplify_eq; rewrite ?Hk.
        -- rewrite HB. by case_decide; simplify_eq; rewrite ?Hk.
Qed.
End overrides.

Lemma rangesOver_elem {V} keys (m : gmap string V) k :
  rangesOver keys m → k ∈ keys ↔ is_Some (m !! k).
Proof.
  intros [_ Hdom]. by rewrite <- elem_of_dom, Hdom, elem_of_list_to_set.
Qed.

Lemma overridden_covered keys (m : gmap string string) x old :
  rangesOver keys m → overridden keys m x old = default old (m !! x).
Proof.
  intros Hkeys. unfold overridden. case_decide as Hx; [done|].
  rewrite (rangesOver_elem _ _ _ Hkeys) in Hx.
  by destruct (m !! x) as [v|]; [destruct Hx|].
Qed.

Lemma resolveDirectories_spec configFilename keys Config Config' r :
  rangesOver keys (directoriesOf Config) →
  resolveDirectories configFilename keys Config = (Config', r) →
  match r with
  | None =>
      recognizedDirectories Config ∧
      ConfigType.PublicDirectory Config' =
        default defaultPublicDirectory (directoriesOf Config !! "public") ∧
      ConfigType.PrivateDirectory Config' =
        default defaultPrivateDirectory (directoriesOf Config !! "private")
  | Some e =>
      ∃ k, is_Some (directoriesOf Config !! k) ∧ ¬ recognizedDirectory k ∧
           e = UnrecognizedDirectoryKey k configFilename
  end.
Proof.
  intros Hkeys. unfold resolveDirectories, andThen at 1 2, assign. simpl.
  destruct (ConfigType.Directories Config) as [dirs|] eqn:Hdirs.
  - intros Hrun.
    apply (override_loop "public" "private"
             ConfigType.PublicDirectory ConfigType.PrivateDirectory
             ConfigType.setPublicDirectory ConfigType.setPrivateDirectory
             directoriesOf (λ k _, UnrecognizedDirectoryKey k configFilename))
      in Hrun; try done.
    change (directoriesOf _) with (directoriesOf Config) in Hrun.
    destruct r as [e|].
    + destruct Hrun as (k & v & _ & Hk & Ha & Hb & ->).
      exists k. split_and!; [by rewrite Hk| |done].
      by intros [?|?].
    + destruct Hrun as (HF & HA & HB).
      rewrite HA, HB, !overridden_covered by done. split_and!; try done.
      intros k v Hk. rewrite Forall_forall in HF. apply HF.
      * apply (rangesOver_elem _ _ _ Hkeys). by rewrite Hk.
      * by rewrite Hk.
  - unfold skip. intros ?; simplify_eq. unfold recognizedDirectories, directoriesOf.
    rewrite Hdirs. simpl. split; [apply map_Forall_empty|done].
Qed.

Lemma resolveExtensions_spec keys Config Config' r :
  rangesOver keys (extensionsOf Config) →
  resolveExtensions keys Config = (Config', r) →
  match r with
  | None =>
      recognizedExtensions Config ∧
      ConfigType.ExtensionKey Config' =
        default defaultExtensionKey (extensionsOf Config !! "key") ∧
      ConfigType.ExtensionCert Config' =
        default defaultExtensionCert (extensionsOf Config !! "certificate")
  | Some e =>
      ∃ k v, extensionsOf Config !! k = Some v ∧ ¬ recognizedExtension k ∧
             e = UnrecognizedExtensionKey k v
  end.
Proof.
  intros Hkeys. unfold resolveExtensions, andThen at 1 2, assign. simpl.
  destruct (ConfigType.Extensions Config) as [exts|] eqn:Hexts.
  - intros Hrun.
    apply (override_loop "key" "certificate"
             ConfigType.ExtensionKey ConfigType.ExtensionCert
             ConfigType.setExtensionKey ConfigType.setExtensionCert
             extensionsOf UnrecognizedExtensionKey)
      in Hrun; try done.
    change (extensionsOf _) with (extensionsOf Config) in Hrun.
    destruct r as [e|].
    + destruct Hrun as (k & v & _ & Hk & Ha & Hb & ->).
      exists k, v. split_and!; [done| |done].
      by intros [?|?].
    + destruct Hrun as (HF & HA & HB).
      rewrite HA, HB, !overridden_covered by done. split_and!; try done.
      intros k v Hk. rewrite Forall_forall in HF. apply HF.
      * apply (rangesOver_elem _ _ _ Hkeys). by rewrite Hk.
      * by rewrite Hk.
  - unfold skip. intros ?; simplify_eq. unfold recognizedExtensions, extensionsOf.
    rewrite Hexts. simpl. split; [apply map_Forall_empty|done].
Qed.

Lemma resolveDirectories_preserves {A} (f : ConfigType.t → A) configFilename keys :
  (∀ v c, f (ConfigType.setPublicDirectory v c) = f c) →
  (∀ v c, f (ConfigType.setPrivateDirectory v c) = f c) →
  preserves f (resolveDirectories configFilename keys).
Proof.
  intros Hpub Hpriv. unfold resolveDirectories.
  repeat apply preserves_andThen;
    [intros c; unfold assign; simpl; auto ..|].
  intros c. destruct (ConfigType.Directories c); [|done].
  apply preserves_forRange. intros k v c' _. unfold directoriesCase.
  repeat case_decide; unfold assign, returnErr; simpl; auto.
Qed.

Lemma resolveExtensions_preserves {A} (f : ConfigType.t → A) keys :
  (∀ v c, f (ConfigType.setExtensionKey v c) = f c) →
  (∀ v c, f (ConfigType.setExtensionCert v c) = f c) →
  preserves f (resolveExtensions keys).
Proof.
  intros Hkey Hcert. unfold resolveExtensions.
  repeat apply preserves_andThen;
    [intros c; unfold assign; simpl; auto ..|].
  intros c. destruct (ConfigType.Extensions c); [|done].
  apply preserves_forRange. intros k v c' _. unfold extensionsCase.
  repeat case_decide; unfold assign, returnErr; simpl; auto.
Qed.

(** ** The first loop over the certificates *)

Lemma getCertType_recognized typeString :
  recognized typeString → ∃ certType, getCertType typeString = inl certType.
Proof. unfold getCertType. intros [certType ->]. by exists certType. Qed.

Lemma getCertType_inl typeString certType :
  getCertType typeString = inl certType → recognized typeString.
Proof.
  unfold getCertType, recognized. by destruct (theMap !! typeString).
Qed.

Lemma getCertType_inr typeString e :
  getCertType typeString = inr e → ¬ recognized typeString.
Proof.
  unfold getCertType, recognized.
  destruct (theMap !! typeString); [done|]. by intros _ [? ?].
Qed.

Lemma resolvedCert_inl fallback cert certType :
  getCertType (Cert.TypeString cert) = inl certType →
  resolvedCert fallback cert = fillCert certType fallback cert.
Proof. unfold resolvedCert. by intros ->. Qed.

Lemma typeAndSubject_preserves {A} (f : ConfigType.t → A) keys :
  (∀ k cert c, f (ConfigType.store k cert c) = f c) →
  preserves f (forRange ConfigType.Certificates typeAndSubject keys).
Proof.
  intros Hstore. apply preserves_forRange. intros k cert c _.
  unfold typeAndSubject, assign, returnErr.
  destruct (getCertType (Cert.TypeString cert)); simpl; auto.
Qed.

Lemma typeAndSubject_loop keys : ∀ Config Config' r,
  NoDup keys →
  forRange ConfigType.Certificates typeAndSubject keys Config = (Config', r) →
  match r with
  | None =>
      Forall (λ k, ∀ cert, ConfigType.Certificates Config !! k = Some cert →
                           recognized (Cert.TypeString cert)) keys ∧
      ∀ k, ConfigType.Certificates Config' !! k =
           if decide (k ∈ keys)
           then resolvedCert (ConfigType.Subject Config)
                  <$> ConfigType.Certificates Config !! k
           else ConfigType.Certificates Config !! k
  | Some e =>
      ∃ k cert, k ∈ keys ∧ ConfigType.Certificates Config !! k = Some cert ∧
                ¬ recognized (Cert.TypeString cert) ∧
                e = InvalidCertificateType k (Cert.TypeString cert)
  end.
Proof.
  induction keys as [|k keys IH]; intros Config Config' r Hnodup Hrun.
  { unfold forRange, skip in Hrun. by simplify_eq. }
  apply NoDup_cons in Hnodup as [Hk Hnodup].
  destruct (ConfigType.Certificates Config !! k) as [cert|] eqn:Hcert.
  - rewrite (forRange_visit _ _ _ _ _ _ Hcert) in Hrun.
    apply andThen_inv in Hrun as [(Config1 & H1 & H2)|(e & H1 & ->)].
    + unfold typeAndSubject, assign, returnErr in H1.
      destruct (getCertType (Cert.TypeString cert)) as [certType|] eqn:Htype;
        [|done].
      injection H1 as <-.
      apply IH in H2; [|done]. simpl in H2.
      assert (∀ j, j ∈ keys →
                <[k:=fillCert certType (ConfigType.Subject Config) cert]>
                  (ConfigType.Certificates Config) !! j =
                ConfigType.Certificates Config !! j) as Hother.
      { intros j Hj. apply lookup_insert_ne. by intros ->. }
      destruct r as [e|].
      * destruct H2 as (j & certj & Hj & Hlook & Hbad & ->).
        exists j, certj. rewrite Hother in Hlook by done.
        split_and!; try done. apply elem_of_cons; auto.
      * destruct H2 as [HF Hlook]. split.
        -- constructor.
           ++ intros cert' ?. simplify_eq. by eapply getCertType_inl.
           ++ rewrite Forall_forall in HF |- *. intros j Hj certj Hcertj.
              apply (HF j Hj). by rewrite Hother.
        -- intros j. rewrite Hlook. destruct (decide (j = k)) as [->|Hne].
           ++ rewrite decide_False by done.
              rewrite decide_True by (apply elem_of_cons; auto).
              rewrite lookup_insert_eq, Hcert. simpl.
              by rewrite (resolvedCert_inl _ _ _ Htype).
           ++ rewrite lookup_insert_ne by done. destruct (decide (j ∈ keys)).
              ** by rewrite decide_True by (apply elem_of_cons; auto).
              ** rewrite decide_False; [done|]. by intros [?|?]%elem_of_cons.
    + unfold typeAndSubject, assign, returnErr in H1.
      destruct (getCertType (Cert.TypeString cert)) as [certType|e'] eqn:Htype;
        [done|].
      simplify_eq. exists k, cert. split_and!; try done.
      * apply elem_of_cons; auto.
      * by eapply getCertType_inr.
  - rewrite (forRange_absent _ _ _ _ _ Hcert) in Hrun.
    apply IH in Hrun; [|done]. destruct r as [e|].
    + destruct Hrun as (j & certj & Hj & Hlook & Hbad & ->).
      exists j, certj. split_and!; try done. apply elem_of_cons; auto.
    + destruct Hrun as [HF Hlook]. split.
      * constructor; [|done]. intros cert' ?. by simplify_eq.
      * intros j. rewrite Hlook. destruct (decide (j = k)) as [->|Hne].
        -- rewrite decide_False by done.
           rewrite decide_True by (apply elem_of_cons; auto).
           by rewrite Hcert.
        -- destruct (decide (j ∈ keys)).
           ++ by rewrite decide_True by (apply elem_of_cons; auto).
           ++ rewrite decide_False; [done|]. by intros [?|?]%elem_of_cons.
Qed.

Lemma typeAndSubject_spec keys Config Config' r :
  rangesOver keys (ConfigType.Certificates Config) →
  forRange ConfigType.Certificates typeAndSubject keys Config = (Config', r) →
  match r with
  | None =>
      recognizedTypes Config ∧
      ConfigType.Certificates Config' = resolvedCertificates Config
  | Some e =>
      ∃ k cert, ConfigType.Certificates Config !! k = Some cert ∧
                ¬ recognized (Cert.TypeString cert) ∧
                e = InvalidCertificateType k (Cert.TypeString cert)
  end.
Proof.
  intros Hkeys Hrun. pose proof Hkeys as [Hnodup _].
  apply typeAndSubject_loop in Hrun; [|done]. destruct r as [e|].
  - destruct Hrun as (k & cert & _ & ? & ? & ?). by exists k, cert.
  - destruct Hrun as [HF Hlook]. split.
    + intros k cert Hk. rewrite Forall_forall in HF. apply (HF k); [|done].
      apply (rangesOver_elem _ _ _ Hkeys). by rewrite Hk.
    + apply map_eq. intros k. rewrite Hlook. unfold resolvedCertificates.
      rewrite lookup_fmap. case_decide as Hin; [done|].
      rewrite (rangesOver_elem _ _ _ Hkeys) in Hin.
      destruct (ConfigType.Certificates Config !! k); [|done].
      by destruct Hin.
Qed.

(** ** The second loop over the certificates *)

Lemma unlinked_fields cert cert' :
  unlinked cert = unlinked cert' →
  Cert.IsSelfSigned cert = Cert.IsSelfSigned cert' ∧
  Cert.Issuer cert = Cert.Issuer cert' ∧
  Cert.IsCA cert = Cert.IsCA cert'.
Proof.
  intros H. split_and!.
  - by apply (f_equal Cert.IsSelfSigned) in H.
  - by apply (f_equal Cert.Issuer) in H.
  - by apply (f_equal Cert.IsCA) in H.
Qed.

Lemma lookup_unlinked (m m' : gmap string Cert.t) k :
  unlinked <$> m = unlinked <$> m' →
  unlinked <$> (m !! k) = unlinked <$> (m' !! k).
Proof. intros H. by rewrite <- !lookup_fmap, H. Qed.

Lemma issuerCheck_unlinked (m m' : gmap string Cert.t) k cert cert' :
  unlinked <$> m = unlinked <$> m' → unlinked cert = unlinked cert' →
  issuerCheck m k cert = issuerCheck m' k cert'.
Proof.
  intros Hm (Hself & Hissuer & _)%unlinked_fields. unfold issuerCheck.
  rewrite Hself, Hissuer.
  pose proof (lookup_unlinked _ _ (Cert.Issuer cert') Hm) as Hlook.
  destruct (m !! Cert.Issuer cert') as [i|], (m' !! Cert.Issuer cert') as [i'|];
    try done.
  apply (inj Some) in Hlook.
  by apply unlinked_fields in Hlook as (_ & _ & ->).
Qed.

Lemma firstFailure_unlinked (m m' : gmap string Cert.t) keys :
  unlinked <$> m = unlinked <$> m' → firstFailure m keys = firstFailure m' keys.
Proof.
  intros Hm. induction keys as [|k keys IH]; [done|]. simpl.
  pose proof (lookup_unlinked _ _ k Hm) as Hlook.
  destruct (m !! k) as [c|], (m' !! k) as [c'|]; try done.
  apply (inj Some) in Hlook.
  rewrite (issuerCheck_unlinked m m' k c c') by done.
  by rewrite IH.
Qed.

Lemma linkIssuer_result k cert Config :
  (linkIssuer k cert Config).2 = issuerCheck (ConfigType.Certificates Config) k cert.
Proof.
  unfold linkIssuer, issuerCheck, andThen, assign, returnErr, skip.
  destruct (Cert.IsSelfSigned cert); [by case_decide|]. simpl.
  destruct (ConfigType.Certificates Config !! Cert.Issuer cert) as [issuer|];
    [|done].
  by destruct (Cert.IsCA issuer).
Qed.

Lemma linkIssuer_unlinked k cert Config :
  ConfigType.Certificates Config !! k = Some cert →
  unlinked <$> ConfigType.Certificates (linkIssuer k cert Config).1 =
  unlinked <$> ConfigType.Certificates Config.
Proof.
  intros Hk.
  assert (∀ p, unlinked <$> <[k:=Cert.setIssuerCert p cert]>
                                 (ConfigType.Certificates Config) =
               unlinked <$> ConfigType.Certificates Config) as Hstore.
  { intros p. rewrite fmap_insert.
    apply insert_id. by rewrite lookup_fmap, Hk. }
  unfold linkIssuer, andThen, assign, returnErr, skip.
  destruct (Cert.IsSelfSigned cert); [by case_decide|]. simpl.
  destruct (ConfigType.Certificates Config !! Cert.Issuer cert) as [issuer|];
    [|by apply Hstore].
  destruct (Cert.IsCA issuer); by apply Hstore.
Qed.

Lemma linkIssuer_preserves {A} (f : ConfigType.t → A) keys :
  (∀ k cert c, f (ConfigType.store k cert c) = f c) →
  preserves f (forRange ConfigType.Certificates linkIssuer keys).
Proof.
  intros Hstore. apply preserves_forRange. intros k cert c _.
  unfold linkIssuer, andThen, assign, returnErr, skip.
  destruct (Cert.IsSelfSigned cert); [by case_decide|]. simpl.
  destruct (ConfigType.Certificates c !! Cert.Issuer cert) as [issuer|];
    [|by apply Hstore].
  destruct (Cert.IsCA issuer); by apply Hstore.
Qed.

Lemma linkIssuer_loop keys : ∀ Config,
  unlinked <$> ConfigType.Certificates
                 (forRange ConfigType.Certificates linkIssuer keys Config).1 =
  unlinked <$> ConfigType.Certificates Config ∧
  (forRange ConfigType.Certificates linkIssuer keys Config).2 =
  firstFailure (ConfigType.Certificates Config) keys.
Proof.
  induction keys as [|k keys IH]; intros Config; [done|].
  destruct (ConfigType.Certificates Config !! k) as [cert|] eqn:Hk.
  - rewrite (forRange_visit _ _ _ _ _ _ Hk). simpl. rewrite Hk.
    pose proof (linkIssuer_result k cert Config) as Hres.
    pose proof (linkIssuer_unlinked k cert Config Hk) as Hunl.
    unfold andThen at 1 2.
    destruct (linkIssuer k cert Config) as [Config1 [e|]]; simpl in *.
    + by rewrite <- Hres.
    + rewrite <- Hres. destruct (IH Config1) as [IH1 IH2].
      rewrite IH1, IH2. split; [done|]. by apply firstFailure_unlinked.
  - rewrite (forRange_absent _ _ _ _ _ Hk). simpl. rewrite Hk. apply IH.
Qed.

Lemma firstFailure_app certs keys1 keys2 :
  firstFailure certs (keys1 ++ keys2) =
  match firstFailure certs keys1 with
  | Some e => Some e
  | None => firstFailure certs keys2
  end.
Proof.
  induction keys1 as [|k keys1 IH]; [done|]. simpl.
  destruct (certs !! k) as [cert|]; [|done].
  by destruct (issuerCheck certs k cert).
Qed.

Lemma firstFailure_None certs keys :
  firstFailure certs keys = None ↔
  ∀ k cert, k ∈ keys → certs !! k = Some cert → issuerCheck certs k cert = None.
Proof.
  induction keys as [|k keys IH]; simpl.
  - split; [|done]. by intros _ k cert ?%elem_of_nil.
  - split.
    + intros H j cert [Heq|Hj]%elem_of_cons Hcert.
      * subst j. rewrite Hcert in H. by destruct (issuerCheck certs k cert).
      * destruct (certs !! k) as [c|].
        -- destruct (issuerCheck certs k c); [done|]. by eapply IH.
        -- by eapply IH.
    + intros H. destruct (certs !! k) as [c|] eqn:Hk.
      * rewrite (H k c) by (by try apply elem_of_cons; auto).
        apply IH. intros j cert Hj. apply H, elem_of_cons. auto.
      * apply IH. intros j cert Hj. apply H, elem_of_cons. auto.
Qed.

Lemma firstFailure_pass certs keys :
  allEdgesPass certs → firstFailure certs keys = None.
Proof. intros Hall. apply firstFailure_None. intros k cert _. apply Hall. Qed.

Lemma firstFailure_reached certs before k after cert e :
  firstFailure certs before = None → certs !! k = Some cert →
  issuerCheck certs k cert = Some e →
  firstFailure certs (before ++ k :: after) = Some e.
Proof.
  intros Hbefore Hk Hcheck. rewrite firstFailure_app, Hbefore. simpl.
  by rewrite Hk, Hcheck.
Qed.

Lemma firstFailure_fails certs keys k cert e :
  k ∈ keys → certs !! k = Some cert → issuerCheck certs k cert = Some e →
  firstFailure certs keys ≠ None.
Proof.
  intros Hin Hk Hcheck Hnone.
  rewrite firstFailure_None in Hnone. by rewrite (Hnone k cert) in Hcheck.
Qed.

(** a visit that returns no error leaves the visited cell linked, and keeps
    the cells linked that were *)
Lemma linkIssuer_links k cert Config Config1 :
  ConfigType.Certificates Config !! k = Some cert →
  linkIssuer k cert Config = (Config1, None) →
  linked (ConfigType.Certificates Config1) k.
Proof.
  intros Hk. unfold linkIssuer, andThen, assign, returnErr, skip.
  destruct (Cert.IsSelfSigned cert) eqn:Hself.
  - case_decide; [done|]. intros ?; simplify_eq.
    intros cert' ? ?. simplify_eq. congruence.
  - simpl.
    destruct (ConfigType.Certificates Config !! Cert.Issuer cert)
      as [issuer|] eqn:Hissuer; [|done].
    destruct (Cert.IsCA issuer) eqn:HCA; [|done]. simpl.
    intros ?; simplify_eq. simpl. intros cert'.
    rewrite lookup_insert_eq. intros ? _. simplify_eq. simpl.
    split; [done|].
    destruct (decide (k = Cert.Issuer cert)) as [->|Hne].
    + rewrite lookup_insert_eq. eexists. split; [done|]. simpl. congruence.
    + rewrite lookup_insert_ne by done. eauto.
Qed.

Lemma linkIssuer_keeps_linked j k cert Config Config1 :
  ConfigType.Certificates Config !! k = Some cert →
  linkIssuer k cert Config = (Config1, None) →
  linked (ConfigType.Certificates Config) j →
  linked (ConfigType.Certificates Config1) j.
Proof.
  intros Hk Hrun Hj. destruct (decide (j = k)) as [->|Hne].
  { by eapply linkIssuer_links. }
  revert Hrun. unfold linkIssuer, andThen, assign, returnErr, skip.
  destruct (Cert.IsSelfSigned cert) eqn:Hself.
  { case_decide; [done|]. by intros ?; simplify_eq. }
  simpl.
  destruct (ConfigType.Certificates Config !! Cert.Issuer cert)
    as [issuer|] eqn:Hissuer; [|done].
  destruct (Cert.IsCA issuer) eqn:HCA; [|done]. simpl.
  intros ?; simplify_eq. simpl. intros certj.
  rewrite lookup_insert_ne by done. intros Hcertj Hselfj.
  destruct (Hj certj Hcertj Hselfj) as (Hptr & issuerj & Hlook & HCAj).
  split; [done|].
  destruct (decide (k = Cert.Issuer certj)) as [Heq|Hne'].
  - rewrite <- Heq in *. rewrite lookup_insert_eq. eexists. split; [done|].
    simpl. congruence.
  - rewrite lookup_insert_ne by done. eauto.
Qed.

Lemma linkIssuer_loop_links keys : ∀ Config Config',
  forRange ConfigType.Certificates linkIssuer keys Config = (Config', None) →
  ∀ k, k ∈ keys → linked (ConfigType.Certificates Config') k.
Proof.
  induction keys as [|k keys IH]; intros Config Config' Hrun j Hj.
  { by apply elem_of_nil in Hj. }
  assert (∀ c c', forRange ConfigType.Certificates linkIssuer keys c = (c', None) →
            linked (ConfigType.Certificates c) k →
            linked (ConfigType.Certificates c') k) as Hkeep.
  { apply (forRange_passing _ _ (λ c, linked (ConfigType.Certificates c) k)).
    intros. by eapply linkIssuer_keeps_linked. }
  destruct (ConfigType.Certificates Config !! k) as [cert|] eqn:Hk.
  - rewrite (forRange_visit _ _ _ _ _ _ Hk) in Hrun.
    apply andThen_inv in Hrun as [(Config1 & H1 & H2)|(e & _ & ?)]; [|done].
    apply elem_of_cons in Hj as [->|Hj]; [|by eapply IH].
    eapply Hkeep; [done|]. by eapply linkIssuer_links.
  - rewrite (forRange_absent _ _ _ _ _ Hk) in Hrun.
    apply elem_of_cons in Hj as [->|Hj]; [|by eapply IH].
    eapply Hkeep; [done|]. intros cert. by rewrite Hk.
Qed.

(** ** The decoded part of [Config] is only read *)

Lemma decodedDocument_store k cert cert' c :
  ConfigType.Certificates c !! k = Some cert →
  decodedPart cert' = decodedPart cert →
  decodedDocument (ConfigType.store k cert' c) = decodedDocument c.
Proof.
  intros Hk Hpart. unfold decodedDocument. simpl. f_equal.
  rewrite fmap_insert, Hpart. apply insert_id. by rewrite lookup_fmap, Hk.
Qed.

Lemma typeAndSubject_decoded keys :
  preserves decodedDocument (forRange ConfigType.Certificates typeAndSubject keys).
Proof.
  apply preserves_forRange. intros k cert c Hk.
  unfold typeAndSubject, assign, returnErr.
  destruct (getCertType (Cert.TypeString cert)); simpl; [|done].
  by apply (decodedDocument_store k cert).
Qed.

Lemma linkIssuer_decoded keys :
  preserves decodedDocument (forRange ConfigType.Certificates linkIssuer keys).
Proof.
  apply preserves_forRange. intros k cert c Hk.
  unfold linkIssuer, andThen, assign, returnErr, skip.
  destruct (Cert.IsSelfSigned cert); [by case_decide|]. simpl.
  destruct (ConfigType.Certificates c !! Cert.Issuer cert) as [issuer|];
    [|by apply (decodedDocument_store k cert)].
  destruct (Cert.IsCA issuer); by apply (decodedDocument_store k cert).
Qed.

Lemma GetConfig_decoded configFilename d order Config :
  decodedDocument (GetConfig configFilename (Parsed d) order Config).1 =
  decodedDocument d.
Proof.
  unfold GetConfig.
  apply (preserves_andThen decodedDocument);
    [by apply resolveDirectories_preserves|].
  apply (preserves_andThen decodedDocument);
    [by apply resolveExtensions_preserves|].
  apply (preserves_andThen decodedDocument).
  - apply typeAndSubject_decoded.
  - apply linkIssuer_decoded.
Qed.

(** ** The stages of [GetConfig] on a decoded document *)

Lemma GetConfig_stages configFilename d order Config Config' r :
  validOrder order d →
  GetConfig configFilename (Parsed d) order Config = (Config', r) →
  (∃ k, is_Some (directoriesOf d !! k) ∧ ¬ recognizedDirectory k ∧
        r = Some (UnrecognizedDirectoryKey k configFilename)) ∨
  (recognizedDirectories d ∧
   ∃ k v, extensionsOf d !! k = Some v ∧ ¬ recognizedExtension k ∧
          r = Some (UnrecognizedExtensionKey k v)) ∨
  (recognizedDirectories d ∧ recognizedExtensions d ∧
   ∃ k cert, ConfigType.Certificates d !! k = Some cert ∧
             ¬ recognized (Cert.TypeString cert) ∧
             r = Some (InvalidCertificateType k (Cert.TypeString cert))) ∨
  (recognizedDirectories d ∧ recognizedExtensions d ∧ recognizedTypes d ∧
   r = firstFailure (resolvedCertificates d) (inCertificates2 order) ∧
   resolvedUpTo d Config' ∧
   (r = None → ∀ k, k ∈ inCertificates2 order →
               linked (ConfigType.Certificates Config') k)).
Proof.
  intros (Hdirs & Hexts & Hcerts1 & Hcerts2). unfold GetConfig. intros Hrun.
  (* directories *)
  apply andThen_inv in Hrun as [(Config1 & H1 & Hrun)|(e & H1 & ->)]; cycle 1.
  { left. apply resolveDirectories_spec in H1 as (k & ? & ? & ->); eauto. }
  pose proof (resolveDirectories_preserves extensionsOf configFilename
                (inDirectories order) (λ _ _, eq_refl) (λ _ _, eq_refl) d) as Hext1.
  pose proof (resolveDirectories_preserves ConfigType.Certificates configFilename
                (inDirectories order) (λ _ _, eq_refl) (λ _ _, eq_refl) d) as Hcert1.
  pose proof (resolveDirectories_preserves ConfigType.Subject configFilename
                (inDirectories order) (λ _ _, eq_refl) (λ _ _, eq_refl) d) as Hsubj1.
  rewrite H1 in Hext1, Hcert1, Hsubj1. simpl in Hext1, Hcert1, Hsubj1.
  apply resolveDirectories_spec in H1 as (Hrd & Hpub & Hpriv); [|done].
  right.
  (* extensions *)
  apply andThen_inv in Hrun as [(Config2 & H2 & Hrun)|(e & H2 & ->)]; cycle 1.
  { left. split; [done|].
    apply resolveExtensions_spec in H2 as (k & v & Hk & ? & ->);
      [|by rewrite Hext1].
    rewrite Hext1 in Hk. eauto. }
  pose proof (resolveExtensions_preserves ConfigType.Certificates
                (inExtensions order) (λ _ _, eq_refl) (λ _ _, eq_refl) Config1) as Hcert2.
  pose proof (resolveExtensions_preserves ConfigType.Subject
                (inExtensions order) (λ _ _, eq_refl) (λ _ _, eq_refl) Config1) as Hsubj2.
  pose proof (resolveExtensions_preserves ConfigType.PublicDirectory
                (inExtensions order) (λ _ _, eq_refl) (λ _ _, eq_refl) Config1) as Hpub2.
  pose proof (resolveExtensions_preserves ConfigType.PrivateDirectory
                (inExtensions order) (λ _ _, eq_refl) (λ _ _, eq_refl) Config1) as Hpriv2.
  rewrite H2 in Hcert2, Hsubj2, Hpub2, Hpriv2.
  simpl in Hcert2, Hsubj2, Hpub2, Hpriv2.
  apply resolveExtensions_spec in H2 as (Hre & Hkey & Hcrt); [|by rewrite Hext1].
  rewrite Hext1 in Hkey, Hcrt.
  assert (recognizedExtensions d) as Hre'.
  { unfold recognizedExtensions in *. by rewrite <- Hext1. }
  right.
  (* the types and the subjects *)
  assert (resolvedCertificates Config2 = resolvedCertificates d) as Hres.
  { unfold resolvedCertificates. by rewrite Hcert2, Hcert1, Hsubj2, Hsubj1. }
  assert (recognizedTypes Config2 ↔ recognizedTypes d) as Hrt.
  { unfold recognizedTypes. by rewrite Hcert2, Hcert1. }
  apply andThen_inv in Hrun as [(Config3 & H3 & Hrun)|(e & H3 & ->)]; cycle 1.
  { left. split_and!; try done.
    apply typeAndSubject_spec in H3 as (k & cert & Hk & ? & ->);
      [|by rewrite Hcert2, Hcert1].
    rewrite Hcert2, Hcert1 in Hk. eauto. }
  pose proof (typeAndSubject_preserves
                (λ c, (ConfigType.PublicDirectory c, ConfigType.PrivateDirectory c,
                       ConfigType.ExtensionKey c, ConfigType.ExtensionCert c))
                (inCertificates1 order) (λ _ _ _, eq_refl) Config2) as Hfields3.
  rewrite H3 in Hfields3. simpl in Hfields3.
  apply typeAndSubject_spec in H3 as [Htypes Hstore];
    [|by rewrite Hcert2, Hcert1].
  rewrite Hres in Hstore. rewrite Hrt in Htypes.
  right.
  (* the issuers *)
  pose proof (linkIssuer_loop (inCertificates2 order) Config3) as [Hunl Hfail].
  pose proof (linkIssuer_preserves
                (λ c, (ConfigType.PublicDirectory c, ConfigType.PrivateDirectory c,
                       ConfigType.ExtensionKey c, ConfigType.ExtensionCert c))
                (inCertificates2 order) (λ _ _ _, eq_refl) Config3) as Hfields4.
  pose proof (linkIssuer_loop_links (inCertificates2 order) Config3 Config') as Hlinks.
  rewrite Hrun in Hunl, Hfail, Hfields4. simpl in Hunl, Hfail, Hfields4.
  rewrite Hstore in Hunl, Hfail. rewrite Hfields3 in Hfields4.
  split_and!; try done.
  - unfold resolvedUpTo. simplify_eq. split_and!; congruence.
  - intros ->. by apply Hlinks.
Qed.

(** what a run leaves when the sections and the types are recognized *)
Lemma GetConfig_recognized configFilename d order Config Config' r :
  validOrder order d →
  recognizedDirectories d → recognizedExtensions d → recognizedTypes d →
  GetConfig configFilename (Parsed d) order Config = (Config', r) →
  r = firstFailure (resolvedCertificates d) (inCertificates2 order) ∧
  resolvedUpTo d Config' ∧
  (r = None → ∀ k, k ∈ inCertificates2 order →
              linked (ConfigType.Certificates Config') k).
Proof.
  intros Horder Hrd Hre Hrt Hrun.
  apply GetConfig_stages in Hrun
    as [(k & [v Hk] & Hbad & _)|[(_ & k & v & Hk & Hbad & _)|
        [(_ & _ & k & cert & Hk & Hbad & _)|(_ & _ & _ & H)]]]; [..|done|done].
  - destruct Hbad. by apply (Hrd k v).
  - destruct Hbad. by apply (Hre k v).
  - destruct Hbad. by apply (Hrt k cert).
Qed.

(** a run returns an error, whatever it is, unless every stage passes *)
Lemma GetConfig_passes configFilename d order Config :
  validOrder order d →
  (GetConfig configFilename (Parsed d) order Config).2 = None →
  recognizedDirectories d ∧ recognizedExtensions d ∧ recognizedTypes d ∧
  firstFailure (resolvedCertificates d) (inCertificates2 order) = None.
Proof.
  intros Horder Hnone.
  destruct (GetConfig configFilename (Parsed d) order Config)
    as [Config' r] eqn:Hrun. simpl in Hnone. subst r.
  apply GetConfig_stages in Hrun
    as [(? & _ & _ & ?)|[(_ & ? & ? & _ & _ & ?)|
        [(_ & _ & ? & ? & _ & _ & ?)|(? & ? & ? & ? & _)]]]; done.
Qed.

Lemma resolvedCertificates_lookup d k :
  resolvedCertificates d !! k =
  resolvedCert (ConfigType.Subject d) <$> ConfigType.Certificates d !! k.
Proof. unfold resolvedCertificates. apply lookup_fmap. Qed.

Lemma resolvedCert_fields fallback cert certType :
  getCertType (Cert.TypeString cert) = inl certType →
  Cert.Issuer (resolvedCert fallback cert) = Cert.Issuer cert ∧
  Cert.IsSelfSigned (resolvedCert fallback cert) = isSelfSigned certType ∧
  Cert.IsCA (resolvedCert fallback cert) = isCA certType.
Proof. intros Htype. by rewrite (resolvedCert_inl _ _ _ Htype). Qed.

(** a certificate whose check fails makes every run fail, with the error of
    this check when the run reaches it first *)
Lemma GetConfig_check_fails configFilename d order Config k cert e :
  validOrder order d →
  resolvedCertificates d !! k = Some cert →
  issuerCheck (resolvedCertificates d) k cert = Some e →
  (GetConfig configFilename (Parsed d) order Config).2 ≠ None ∧
  (reachedFirst d order k →
   (GetConfig configFilename (Parsed d) order Config).2 = Some e).
Proof.
  intros Horder Hk Hcheck. split.
  - intros (_ & _ & _ & Hnone)%GetConfig_passes; [|done].
    revert Hnone. eapply firstFailure_fails; [|done..].
    destruct Horder as (_ & _ & _ & Hkeys).
    apply (rangesOver_elem _ _ _ Hkeys).
    rewrite resolvedCertificates_lookup in Hk.
    by destruct (ConfigType.Certificates d !! k).
  - intros (Hrd & Hre & Hrt & before & after & Hsplit & Hbefore).
    destruct (GetConfig configFilename (Parsed d) order Config)
      as [Config' r] eqn:Hrun.
    apply GetConfig_recognized in Hrun as (-> & _); [|done..].
    simpl. rewrite Hsplit. by eapply firstFailure_reached.
Qed.

Lemma append_assoc s t u : (s +:+ t) +:+ u = s +:+ (t +:+ u).
Proof.
  induction s as [|a s IH]; [done|].
  change (String a ((s +:+ t) +:+ u) = String a (s +:+ (t +:+ u))).
  by rewrite IH.
Qed.

Lemma append_empty_r s : s +:+ EmptyString = s.
Proof.
  induction s as [|a s IH]; [done|].
  change (String a (s +:+ EmptyString) = String a s). by rewrite IH.
Qed.

Ltac names_with before after :=
  exists before, after; unfold Error;
  rewrite ?append_assoc, ?append_empty_r; reflexivity.

Lemma names_InvalidCertificateType certName typeString :
  names (InvalidCertificateType certName typeString) certName ∧
  names (InvalidCertificateType certName typeString) typeString.
Proof.
  split.
  - names_with "invalid type " (" for certificate " +:+ typeString).
  - names_with ("invalid type " +:+ certName +:+ " for certificate ") EmptyString.
Qed.

Lemma names_MissingIssuer certName issuer :
  names (MissingIssuer certName issuer) certName ∧
  names (MissingIssuer certName issuer) issuer.
Proof.
  split.
  - names_with "certificate " (" has missing issuer " +:+ issuer).
  - names_with ("certificate " +:+ certName +:+ " has missing issuer ") EmptyString.
Qed.

Lemma names_IssuerNotAuthority certName issuer :
  names (IssuerNotAuthority certName issuer) certName ∧
  names (IssuerNotAuthority certName issuer) issuer.
Proof.
  split.
  - names_with "certificate " (" has issuer " +:+ issuer +:+ " that is not a CA").
  - names_with ("certificate " +:+ certName +:+ " has issuer ") " that is not a CA".
Qed.

Lemma names_SelfSignedWithIssuer certName :
  names (SelfSignedWithIssuer certName) certName.
Proof. names_with "self-signed certificate " " must not have issuer". Qed.

Lemma names_UnrecognizedDirectoryKey dirName configFilename :
  names (UnrecognizedDirectoryKey dirName configFilename) dirName.
Proof.
  names_with "invalid entry "
    (" in directories section of config file " +:+ configFilename).
Qed.

Lemma names_UnrecognizedExtensionKey extName ext :
  names (UnrecognizedExtensionKey extName ext) extName.
Proof.
  names_with "invalid entry " (" in extensions section of config file " +:+ ext).
Qed.

(** * The claims *)

Ltac by_computation := apply (bool_decide_unpack _); vm_compute; exact I.

(** ** Classification *)

(** The table of [getCertType]: the type and the two flags of each of the
    five tags (rootCA: authority, self-signed; intermediateCA: authority, not
    self-signed; OCSPSigning, server, client: neither); every other tag
    fails, and [GetConfig] then returns at once the error of line 147, whose
    message contains the name of the certificate and the tag. *)
Theorem getCertType_table :
  getCertType "rootCA" = inl (mkCertInfo RootCACert true true) ∧
  getCertType "intermediateCA" = inl (mkCertInfo IntermediateCACert true false) ∧
  getCertType "OCSPSigning" = inl (mkCertInfo OCSPSigningCert false false) ∧
  getCertType "server" = inl (mkCertInfo ServerCert false false) ∧
  getCertType "client" = inl (mkCertInfo ClientCert false false) ∧
  ∀ typeString,
    typeString ∉ ["rootCA"; "intermediateCA"; "OCSPSigning"; "server"; "client"] →
    getCertType typeString = inr (InvalidTypeString typeString) ∧
    ∀ certName cert Config,
      Cert.TypeString cert = typeString →
      typeAndSubject certName cert Config =
        (Config, Some (InvalidCertificateType certName typeString)) ∧
      Error (InvalidCertificateType certName typeString) =
        "invalid type " +:+ certName +:+ " for certificate " +:+ typeString ∧
      names (InvalidCertificateType certName typeString) certName ∧
      names (InvalidCertificateType certName typeString) typeString.
Proof.
  split_and!; try reflexivity.
  intros typeString Hother.
  assert (getCertType typeString = inr (InvalidTypeString typeString)) as Hfail.
  { unfold getCertType, theMap. simpl.
    repeat (rewrite lookup_insert_ne;
            [|intros <-; apply Hother; repeat constructor]).
    by rewrite lookup_empty. }
  split; [done|]. intros certName cert Config <-.
  split_and!; try apply names_InvalidCertificateType; [|done].
  unfold typeAndSubject. by rewrite Hfail.
Qed.

Lemma getCertType_table_witness :
  getCertType "bogus" = inr (InvalidTypeString "bogus") ∧
  typeAndSubject "web" (decodedCert "bogus" "root") scenarioA =
    (scenarioA, Some (InvalidCertificateType "web" "bogus")).
Proof.
  destruct getCertType_table as (_ & _ & _ & _ & _ & Hother).
  destruct (Hother "bogus") as [Hfail Hrun].
  - by_computation.
  - split; [exact Hfail|].
    exact (proj1 (Hrun "web" (decodedCert "bogus" "root") scenarioA eq_refl)).
Defined.

(** ** Subjects *)

(** C8: each of the fields O, OU and CN of a resolved subject is the field of
    the fallback when the field of the certificate is empty and the field of
    the certificate otherwise, one field independently of the others; the
    example of the specification resolves as it says; and the first loop
    stores this subject for a certificate of a recognized type without an
    error: there is none to return for a subject. *)
Theorem fillSubject_fieldwise (spec fallback : SubjectType.t) :
  SubjectType.O (fillSubject spec fallback) =
    (if decide (SubjectType.O spec = EmptyString)
     then SubjectType.O fallback else SubjectType.O spec) ∧
  SubjectType.OU (fillSubject spec fallback) =
    (if decide (SubjectType.OU spec = EmptyString)
     then SubjectType.OU fallback else SubjectType.OU spec) ∧
  SubjectType.CN (fillSubject spec fallback) =
    (if decide (SubjectType.CN spec = EmptyString)
     then SubjectType.CN fallback else SubjectType.CN spec) ∧
  fillSubject (SubjectType.mk EmptyString "X" EmptyString)
              (SubjectType.mk "Acme" "Y" "foo.com") =
    SubjectType.mk "Acme" "X" "foo.com" ∧
  ∀ certName cert Config,
    recognized (Cert.TypeString cert) →
    Cert.Subject cert = spec → ConfigType.Subject Config = fallback →
    ∃ Config',
      typeAndSubject certName cert Config = (Config', None) ∧
      Cert.Subject <$> ConfigType.Certificates Config' !! certName =
        Some (fillSubject spec fallback).
Proof.
  split_and!; try reflexivity.
  intros certName cert Config [certType Htype]%getCertType_recognized <- <-.
  unfold typeAndSubject. rewrite Htype. eexists. split; [reflexivity|].
  simpl. by rewrite lookup_insert_eq.
Qed.

Lemma fillSubject_fieldwise_witness :
  ∃ Config',
    typeAndSubject "server"
      (Cert.mk "server" "root" (SubjectType.mk EmptyString "X" EmptyString)
               [] 0 false false None)
      (ConfigType.mk None None (SubjectType.mk "Acme" "Y" "foo.com") [] ∅ ∅
         EmptyString EmptyString EmptyString EmptyString) = (Config', None) ∧
    Cert.Subject <$> ConfigType.Certificates Config' !! "server" =
      Some (fillSubject (SubjectType.mk EmptyString "X" EmptyString)
                        (SubjectType.mk "Acme" "Y" "foo.com")).
Proof.
  apply (proj2 (proj2 (proj2 (proj2
           (fillSubject_fieldwise (SubjectType.mk EmptyString "X" EmptyString)
                                  (SubjectType.mk "Acme" "Y" "foo.com")))))).
  - by_computation.
  - reflexivity.
  - reflexivity.
Defined.

(** ** Issuer links *)

Lemma GetConfig_cell configFilename d order Config k :
  decodedPart <$> ConfigType.Certificates
                    (GetConfig configFilename (Parsed d) order Config).1 !! k =
  decodedPart <$> ConfigType.Certificates d !! k.
Proof.
  pose proof (GetConfig_decoded configFilename d order Config) as Hdec.
  unfold decodedDocument in Hdec.
  assert (decodedPart <$> ConfigType.Certificates
            (GetConfig configFilename (Parsed d) order Config).1 =
          decodedPart <$> ConfigType.Certificates d) as Hcerts by congruence.
  by rewrite <- !lookup_fmap, Hcerts.
Qed.

Lemma GetConfig_links configFilename d order Config Config' k :
  validOrder order d →
  GetConfig configFilename (Parsed d) order Config = (Config', None) →
  linked (ConfigType.Certificates Config') k.
Proof.
  intros Horder Hrun.
  destruct (ConfigType.Certificates Config' !! k) as [cert|] eqn:Hk;
    [|by intros cert; rewrite Hk].
  pose proof (GetConfig_cell configFilename d order Config k) as Hcell.
  rewrite Hrun in Hcell. simpl in Hcell. rewrite Hk in Hcell.
  assert (k ∈ inCertificates2 order) as Hin.
  { destruct Horder as (_ & _ & _ & Hkeys).
    apply (rangesOver_elem _ _ _ Hkeys).
    by destruct (ConfigType.Certificates d !! k). }
  apply GetConfig_stages in Hrun
    as [(? & _ & _ & ?)|[(_ & ? & ? & _ & _ & ?)|
        [(_ & _ & ? & ? & _ & _ & ?)|(_ & _ & _ & _ & _ & Hlinks)]]]; try done.
  by apply Hlinks.
Qed.

Lemma linked_cell (certs certs' : gmap string Cert.t) k cert0 :
  unlinked <$> certs' = unlinked <$> certs →
  certs !! k = Some cert0 → Cert.IsSelfSigned cert0 = false →
  linked certs' k →
  Cert.IssuerCert <$> certs' !! k = Some (Some (Cert.Issuer cert0)).
Proof.
  intros Hunl Hk Hself Hlinked.
  pose proof (lookup_unlinked _ _ k Hunl) as Hcell. rewrite Hk in Hcell.
  destruct (certs' !! k) as [cert|] eqn:Hk'; [|done].
  apply (inj Some) in Hcell.
  apply unlinked_fields in Hcell as (Hself' & Hissuer & _).
  destruct (Hlinked cert) as [Hptr _]; [done|congruence|].
  simpl. by rewrite Hptr, Hissuer.
Qed.

(** C3: the document that holds only the intermediate authorities A and B,
    A issued by B and B issued by A, passes every check of the second loop,
    and [GetConfig] returns no error on it, in whatever order the loops
    visit the maps; the two cells then point at each other. *)
Theorem cycle_is_accepted configFilename order Config :
  validOrder order cycleDocument →
  allEdgesPass (resolvedCertificates cycleDocument) ∧
  ∃ Config',
    GetConfig configFilename (Parsed cycleDocument) order Config =
      (Config', None) ∧
    Cert.IssuerCert <$> ConfigType.Certificates Config' !! "A" = Some (Some "B") ∧
    Cert.IssuerCert <$> ConfigType.Certificates Config' !! "B" = Some (Some "A").
Proof.
  intros Horder.
  assert (allEdgesPass (resolvedCertificates cycleDocument)) as Hpass
    by by_computation.
  split; [done|].
  destruct (GetConfig configFilename (Parsed cycleDocument) order Config)
    as [Config' r] eqn:Hrun.
  pose proof Hrun as Hrun'.
  apply GetConfig_recognized in Hrun' as (Hr & (Hunl & _) & _);
    [|done|by_computation..].
  rewrite firstFailure_pass in Hr by done. subst r.
  exists Config'. split; [done|]. split.
  - apply (linked_cell (resolvedCertificates cycleDocument) _ "A"
             (Cert.mk "intermediateCA" "B" noSubject [] 1 true false None));
      [done|by vm_compute|done|by eapply GetConfig_links].
  - apply (linked_cell (resolvedCertificates cycleDocument) _ "B"
             (Cert.mk "intermediateCA" "A" noSubject [] 1 true false None));
      [done|by vm_compute|done|by eapply GetConfig_links].
Qed.

Lemma cycle_is_accepted_witness :
  ∃ Config',
    GetConfig "certs.yaml" (Parsed cycleDocument)
      (mkOrder [] [] ["A"; "B"] ["B"; "A"]) ConfigType.zero = (Config', None).
Proof.
  destruct (cycle_is_accepted "certs.yaml" (mkOrder [] [] ["A"; "B"] ["B"; "A"])
              ConfigType.zero) as (_ & Config' & Hrun & _).
  - repeat split; by_computation.
  - by exists Config'.
Defined.

(** C4: when [GetConfig] returns no error, every certificate of [Config]
    that is not self-signed has an issuer name that is a key of the document,
    the cell of that key is one of an authority ([IsCA]), and [IssuerCert]
    points to that cell. *)
Theorem issuer_is_linked_authority configFilename d order Config Config'
    certName cert :
  validOrder order d →
  GetConfig configFilename (Parsed d) order Config = (Config', None) →
  ConfigType.Certificates Config' !! certName = Some cert →
  Cert.IsSelfSigned cert = false →
  is_Some (ConfigType.Certificates d !! Cert.Issuer cert) ∧
  ∃ issuer,
    ConfigType.Certificates Config' !! Cert.Issuer cert = Some issuer ∧
    Cert.IsCA issuer = true ∧
    Cert.IssuerCert cert = Some (Cert.Issuer cert).
Proof.
  intros Horder Hrun Hcert Hself.
  destruct (GetConfig_links _ _ _ _ _ certName Horder Hrun cert Hcert Hself)
    as (Hptr & issuer & Hissuer & HCA).
  split; [|by exists issuer].
  pose proof (GetConfig_cell configFilename d order Config (Cert.Issuer cert))
    as Hcell.
  rewrite Hrun in Hcell. simpl in Hcell. rewrite Hissuer in Hcell.
  by destruct (ConfigType.Certificates d !! Cert.Issuer cert).
Qed.

Lemma issuer_is_linked_authority_witness :
  let Config' :=
    (GetConfig "certs.yaml" (Parsed scenarioA)
       (mkOrder [] [] ["server"; "root"] ["server"; "root"]) ConfigType.zero).1 in
  let server := Cert.mk "server" "root" noSubject [] 3 false false (Some "root") in
  ConfigType.Certificates Config' !! "server" = Some server ∧
  is_Some (ConfigType.Certificates scenarioA !! Cert.Issuer server) ∧
  ∃ issuer,
    ConfigType.Certificates Config' !! Cert.Issuer server = Some issuer ∧
    Cert.IsCA issuer = true ∧
    Cert.IssuerCert server = Some (Cert.Issuer server).
Proof.
  intros Config' server.
  assert (ConfigType.Certificates Config' !! "server" = Some server) as Hserver
    by by vm_compute.
  split; [exact Hserver|].
  apply (issuer_is_linked_authority "certs.yaml" scenarioA
           (mkOrder [] [] ["server"; "root"] ["server"; "root"])
           ConfigType.zero Config' "server" server).
  - repeat split; by_computation.
  - by vm_compute.
  - exact Hserver.
  - reflexivity.
Defined.

(** ** Failures of the second loop *)

Lemma check_MissingIssuer d certName cert certType :
  ConfigType.Certificates d !! certName = Some cert →
  getCertType (Cert.TypeString cert) = inl certType →
  isSelfSigned certType = false →
  ConfigType.Certificates d !! Cert.Issuer cert = None →
  resolvedCertificates d !! certName =
    Some (resolvedCert (ConfigType.Subject d) cert) ∧
  issuerCheck (resolvedCertificates d) certName
    (resolvedCert (ConfigType.Subject d) cert) =
    Some (MissingIssuer certName (Cert.Issuer cert)).
Proof.
  intros Hcert Htype Hself Hissuer.
  destruct (resolvedCert_fields (ConfigType.Subject d) cert certType Htype)
    as (HI & HS & _).
  split; [by rewrite resolvedCertificates_lookup, Hcert|].
  unfold issuerCheck.
  by rewrite HS, Hself, HI, resolvedCertificates_lookup, Hissuer.
Qed.

Lemma check_IssuerNotAuthority d certName cert certType issuer issuerType :
  ConfigType.Certificates d !! certName = Some cert →
  getCertType (Cert.TypeString cert) = inl certType →
  isSelfSigned certType = false →
  ConfigType.Certificates d !! Cert.Issuer cert = Some issuer →
  getCertType (Cert.TypeString issuer) = inl issuerType →
  isCA issuerType = false →
  resolvedCertificates d !! certName =
    Some (resolvedCert (ConfigType.Subject d) cert) ∧
  issuerCheck (resolvedCertificates d) certName
    (resolvedCert (ConfigType.Subject d) cert) =
    Some (IssuerNotAuthority certName (Cert.Issuer cert)).
Proof.
  intros Hcert Htype Hself Hissuer Hitype HCA.
  destruct (resolvedCert_fields (ConfigType.Subject d) cert certType Htype)
    as (HI & HS & _).
  destruct (resolvedCert_fields (ConfigType.Subject d) issuer issuerType Hitype)
    as (_ & _ & HC).
  split; [by rewrite resolvedCertificates_lookup, Hcert|].
  unfold issuerCheck.
  rewrite HS, Hself, HI, resolvedCertificates_lookup, Hissuer. simpl.
  by rewrite HC, HCA.
Qed.

Lemma check_SelfSignedWithIssuer d certName cert certType :
  ConfigType.Certificates d !! certName = Some cert →
  getCertType (Cert.TypeString cert) = inl certType →
  isSelfSigned certType = true →
  Cert.Issuer cert ≠ EmptyString →
  resolvedCertificates d !! certName =
    Some (resolvedCert (ConfigType.Subject d) cert) ∧
  issuerCheck (resolvedCertificates d) certName
    (resolvedCert (ConfigType.Subject d) cert) =
    Some (SelfSignedWithIssuer certName).
Proof.
  intros Hcert Htype Hself Hissuer.
  destruct (resolvedCert_fields (ConfigType.Subject d) cert certType Htype)
    as (HI & HS & _).
  split; [by rewrite resolvedCertificates_lookup, Hcert|].
  unfold issuerCheck. rewrite HS, Hself, HI. by rewrite decide_True.
Qed.

(** C5, as the code has it: a document with a certificate of a type that is
    not self-signed, whose issuer name is not a key of the certificates,
    makes [GetConfig] return an error in every order of visit; the error is
    the one of line 171, whose message contains the name of the certificate
    and the missing issuer name, when the check of this certificate is the
    first to fail: the keys of the sections and the types are recognized
    and the certificates visited before it in the second loop pass. *)
Theorem missing_issuer_fails configFilename d order Config certName cert
    certType :
  validOrder order d →
  ConfigType.Certificates d !! certName = Some cert →
  getCertType (Cert.TypeString cert) = inl certType →
  isSelfSigned certType = false →
  ConfigType.Certificates d !! Cert.Issuer cert = None →
  (GetConfig configFilename (Parsed d) order Config).2 ≠ None ∧
  (reachedFirst d order certName →
   (GetConfig configFilename (Parsed d) order Config).2 =
     Some (MissingIssuer certName (Cert.Issuer cert))) ∧
  names (MissingIssuer certName (Cert.Issuer cert)) certName ∧
  names (MissingIssuer certName (Cert.Issuer cert)) (Cert.Issuer cert).
Proof.
  intros Horder Hcert Htype Hself Hissuer.
  destruct (check_MissingIssuer d certName cert certType) as [Hk Hcheck];
    [done..|].
  destruct (GetConfig_check_fails configFilename d order Config _ _ _
              Horder Hk Hcheck) as [Hfails Hfirst].
  split_and!; [done|done|apply names_MissingIssuer..].
Qed.

Lemma missing_issuer_fails_witness :
  (GetConfig "certs.yaml" (Parsed scenarioD)
     (mkOrder [] [] ["server"] ["server"]) ConfigType.zero).2 =
  Some (MissingIssuer "server" "ghost").
Proof.
  destruct (missing_issuer_fails "certs.yaml" scenarioD
              (mkOrder [] [] ["server"] ["server"]) ConfigType.zero
              "server" (decodedCert "server" "ghost")
              (mkCertInfo ServerCert false false))
    as (_ & Hfirst & _).
  - repeat split; by_computation.
  - reflexivity.
  - reflexivity.
  - reflexivity.
  - reflexivity.
  - apply Hfirst. split_and!; [by_computation..|].
    by exists [], [].
Defined.

(** the claim C5 fails on a document in which another certificate has an
    unrecognized type: the first loop returns before any issuer is looked up *)
Lemma missing_issuer_counterexample :
  let order := mkOrder [] [] ["server"; "other"] ["server"; "other"] in
  let d := scenarioD_badType in
  validOrder order d ∧
  ConfigType.Certificates d !! "server" = Some (decodedCert "server" "ghost") ∧
  getCertType "server" = inl (mkCertInfo ServerCert false false) ∧
  ConfigType.Certificates d !! "ghost" = None ∧
  (GetConfig "certs.yaml" (Parsed d) order ConfigType.zero).2 =
    Some (InvalidCertificateType "other" "bogus") ∧
  (GetConfig "certs.yaml" (Parsed d) order ConfigType.zero).2 ≠
    Some (MissingIssuer "server" "ghost").
Proof.
  intros order d.
  assert ((GetConfig "certs.yaml" (Parsed d) order ConfigType.zero).2 =
          Some (InvalidCertificateType "other" "bogus")) as Hrun
    by by vm_compute.
  split_and!; try reflexivity; try exact Hrun.
  - repeat split; by_computation.
  - by rewrite Hrun.
Qed.

(** C6, as the code has it: a document with a certificate of a type that is
    not self-signed, whose issuer name is the key of a certificate of a type
    that is not an authority, makes [GetConfig] return an error in every
    order of visit; the error is the one of line 174, whose message contains
    the names of both certificates, when the check of this certificate is
    the first to fail. *)
Theorem issuer_not_authority_fails configFilename d order Config certName cert
    certType issuer issuerType :
  validOrder order d →
  ConfigType.Certificates d !! certName = Some cert →
  getCertType (Cert.TypeString cert) = inl certType →
  isSelfSigned certType = false →
  ConfigType.Certificates d !! Cert.Issuer cert = Some issuer →
  getCertType (Cert.TypeString issuer) = inl issuerType →
  isCA issuerType = false →
  (GetConfig configFilename (Parsed d) order Config).2 ≠ None ∧
  (reachedFirst d order certName →
   (GetConfig configFilename (Parsed d) order Config).2 =
     Some (IssuerNotAuthority certName (Cert.Issuer cert))) ∧
  names (IssuerNotAuthority certName (Cert.Issuer cert)) certName ∧
  names (IssuerNotAuthority certName (Cert.Issuer cert)) (Cert.Issuer cert).
Proof.
  intros Horder Hcert Htype Hself Hissuer Hitype HCA.
  destruct (check_IssuerNotAuthority d certName cert certType issuer issuerType)
    as [Hk Hcheck]; [done..|].
  destruct (GetConfig_check_fails configFilename d order Config _ _ _
              Horder Hk Hcheck) as [Hfails Hfirst].
  split_and!; [done|done|apply names_IssuerNotAuthority..].
Qed.

Lemma issuer_not_authority_fails_witness :
  (GetConfig "certs.yaml" (Parsed scenarioB)
     (mkOrder [] [] ["client"; "root"; "server"] ["root"; "client"; "server"])
     ConfigType.zero).2 =
  Some (IssuerNotAuthority "server" "client").
Proof.
  destruct (issuer_not_authority_fails "certs.yaml" scenarioB
              (mkOrder [] [] ["client"; "root"; "server"]
                       ["root"; "client"; "server"])
              ConfigType.zero
              "server" (decodedCert "server" "client")
              (mkCertInfo ServerCert false false)
              (decodedCert "client" "root")
              (mkCertInfo ClientCert false false))
    as (_ & Hfirst & _).
  - repeat split; by_computation.
  - reflexivity.
  - reflexivity.
  - reflexivity.
  - reflexivity.
  - reflexivity.
  - reflexivity.
  - apply Hfirst. split_and!; [by_computation..|].
    by exists ["root"; "client"], [].
Defined.

(** the claim C6 fails on a document that also has an unrecognized key under
    [directories]: the loop over the directories returns first *)
Lemma issuer_not_authority_counterexample :
  let order :=
    mkOrder ["backup"] [] ["root"; "client"; "server"]
            ["root"; "client"; "server"] in
  let d := scenarioB_badDirectory in
  validOrder order d ∧
  ConfigType.Certificates d !! "server" = Some (decodedCert "server" "client") ∧
  getCertType "server" = inl (mkCertInfo ServerCert false false) ∧
  ConfigType.Certificates d !! "client" = Some (decodedCert "client" "root") ∧
  getCertType "client" = inl (mkCertInfo ClientCert false false) ∧
  (GetConfig "certs.yaml" (Parsed d) order ConfigType.zero).2 =
    Some (UnrecognizedDirectoryKey "backup" "certs.yaml") ∧
  (GetConfig "certs.yaml" (Parsed d) order ConfigType.zero).2 ≠
    Some (IssuerNotAuthority "server" "client").
Proof.
  intros order d.
  assert ((GetConfig "certs.yaml" (Parsed d) order ConfigType.zero).2 =
          Some (UnrecognizedDirectoryKey "backup" "certs.yaml")) as Hrun
    by by vm_compute.
  split_and!; try reflexivity; try exact Hrun.
  - repeat split; by_computation.
  - by rewrite Hrun.
Qed.

(** C7, as the code has it: a document with a certificate of a self-signed
    type (rootCA) and a non-empty issuer name makes [GetConfig] return an
    error in every order of visit; the error is the one of line 165, whose
    message contains the name of the certificate, when the check of this
    certificate is the first to fail. *)
Theorem self_signed_with_issuer_fails configFilename d order Config certName
    cert certType :
  validOrder order d →
  ConfigType.Certificates d !! certName = Some cert →
  getCertType (Cert.TypeString cert) = inl certType →
  isSelfSigned certType = true →
  Cert.Issuer cert ≠ EmptyString →
  (GetConfig configFilename (Parsed d) order Config).2 ≠ None ∧
  (reachedFirst d order certName →
   (GetConfig configFilename (Parsed d) order Config).2 =
     Some (SelfSignedWithIssuer certName)) ∧
  names (SelfSignedWithIssuer certName) certName.
Proof.
  intros Horder Hcert Htype Hself Hissuer.
  destruct (check_SelfSignedWithIssuer d certName cert certType)
    as [Hk Hcheck]; [done..|].
  destruct (GetConfig_check_fails configFilename d order Config _ _ _
              Horder Hk Hcheck) as [Hfails Hfirst].
  split_and!; [done|done|apply names_SelfSignedWithIssuer].
Qed.

Lemma self_signed_with_issuer_fails_witness :
  (GetConfig "certs.yaml" (Parsed scenarioC)
     (mkOrder [] [] ["root"] ["root"]) ConfigType.zero).2 =
  Some (SelfSignedWithIssuer "root").
Proof.
  destruct (self_signed_with_issuer_fails "certs.yaml" scenarioC
              (mkOrder [] [] ["root"] ["root"]) ConfigType.zero
              "root" (decodedCert "rootCA" "other")
              (mkCertInfo RootCACert true true))
    as (_ & Hfirst & _).
  - repeat split; by_computation.
  - reflexivity.
  - reflexivity.
  - reflexivity.
  - by_computation.
  - apply Hfirst. split_and!; [by_computation..|].
    by exists [], [].
Defined.

(** the claim C7 fails on a document that also has an unrecognized key under
    [extensions]: the loop over the extensions returns first *)
Lemma self_signed_with_issuer_counterexample :
  let order := mkOrder [] ["csr"] ["root"] ["root"] in
  let d := scenarioC_badExtension in
  validOrder order d ∧
  ConfigType.Certificates d !! "root" = Some (decodedCert "rootCA" "other") ∧
  getCertType "rootCA" = inl (mkCertInfo RootCACert true true) ∧
  (GetConfig "certs.yaml" (Parsed d) order ConfigType.zero).2 =
    Some (UnrecognizedExtensionKey "csr" "req") ∧
  (GetConfig "certs.yaml" (Parsed d) order ConfigType.zero).2 ≠
    Some (SelfSignedWithIssuer "root").
Proof.
  intros order d.
  assert ((GetConfig "certs.yaml" (Parsed d) order ConfigType.zero).2 =
          Some (UnrecognizedExtensionKey "csr" "req")) as Hrun
    by by vm_compute.
  split_and!; try reflexivity; try exact Hrun.
  - repeat split; by_computation.
  - by rewrite Hrun.
Qed.

(** C10, as the code has it: a document with a certificate of a type that is
    not self-signed (intermediateCA, OCSPSigning, server or client), with an
    empty issuer name, and without a certificate under the empty key, makes
    [GetConfig] return an error in every order of visit; an empty issuer
    name has no check of its own, it is looked up like any other and not
    found: the error is the one of line 171 for this certificate and the
    empty name, when the check of this certificate is the first to fail. *)
Theorem omitted_issuer_is_missing configFilename d order Config certName cert :
  validOrder order d →
  ConfigType.Certificates d !! certName = Some cert →
  Cert.TypeString cert ∈ ["intermediateCA"; "OCSPSigning"; "server"; "client"] →
  Cert.Issuer cert = EmptyString →
  ConfigType.Certificates d !! EmptyString = None →
  (GetConfig configFilename (Parsed d) order Config).2 ≠ None ∧
  (reachedFirst d order certName →
   (GetConfig configFilename (Parsed d) order Config).2 =
     Some (MissingIssuer certName EmptyString)) ∧
  names (MissingIssuer certName EmptyString) certName ∧
  names (MissingIssuer certName EmptyString) EmptyString.
Proof.
  intros Horder Hcert Htype Hissuer Hempty.
  assert (∃ certType, getCertType (Cert.TypeString cert) = inl certType ∧
                      isSelfSigned certType = false) as (certType & Hct & Hself).
  { repeat (apply elem_of_cons in Htype as [->|Htype]; [by eexists|]).
    by apply elem_of_nil in Htype. }
  destruct (check_MissingIssuer d certName cert certType) as [Hk Hcheck];
    [done|done|done|by rewrite Hissuer|].
  rewrite Hissuer in Hcheck.
  destruct (GetConfig_check_fails configFilename d order Config _ _ _
              Horder Hk Hcheck) as [Hfails Hfirst].
  split_and!; [done|done|apply names_MissingIssuer..].
Qed.

Lemma omitted_issuer_is_missing_witness :
  (GetConfig "certs.yaml" (Parsed omittedIssuer)
     (mkOrder [] [] ["server"] ["server"]) ConfigType.zero).2 =
  Some (MissingIssuer "server" EmptyString).
Proof.
  destruct (omitted_issuer_is_missing "certs.yaml" omittedIssuer
              (mkOrder [] [] ["server"] ["server"]) ConfigType.zero
              "server" (decodedCert "server" EmptyString))
    as (_ & Hfirst & _).
  - repeat split; by_computation.
  - reflexivity.
  - by_computation.
  - reflexivity.
  - reflexivity.
  - apply Hfirst. split_and!; [by_computation..|].
    by exists [], [].
Defined.

(** the claim C10 fails on a document in which another certificate has an
    unrecognized type *)
Lemma omitted_issuer_counterexample :
  let order := mkOrder [] [] ["other"; "server"] ["other"; "server"] in
  let d := omittedIssuer_badType in
  validOrder order d ∧
  ConfigType.Certificates d !! "server" =
    Some (decodedCert "server" EmptyString) ∧
  ConfigType.Certificates d !! EmptyString = None ∧
  (GetConfig "certs.yaml" (Parsed d) order ConfigType.zero).2 =
    Some (InvalidCertificateType "other" "bogus") ∧
  (GetConfig "certs.yaml" (Parsed d) order ConfigType.zero).2 ≠
    Some (MissingIssuer "server" EmptyString).
Proof.
  intros order d.
  assert ((GetConfig "certs.yaml" (Parsed d) order ConfigType.zero).2 =
          Some (InvalidCertificateType "other" "bogus")) as Hrun
    by by vm_compute.
  split_and!; try reflexivity; try exact Hrun.
  - repeat split; by_computation.
  - by rewrite Hrun.
Qed.

(** ** The state of [Config] after a failure *)


(** * Further properties of [GetConfig] *)

(** ** The state in which each stage leaves [Config] *)

Section failing.
Context {V : Type}.
Variable m : ConfigType.t → gmap string V.
Variable body : string → V → stmt.
Variable P : ConfigType.t → Prop.
Hypothesis passing : ∀ k v Config Config1,
  m Config !! k = Some v → body k v Config = (Config1, None) →
  P Config → P Config1.

(** a loop that returns an error returns it from the visit of one of its
    keys, in the state that this visit leaves *)
Lemma forRange_failing keys : ∀ Config Config' e,
  forRange m body keys Config = (Config', Some e) → P Config →
  ∃ k v Configk,
    k ∈ keys ∧ P Configk ∧ m Configk !! k = Some v ∧
    body k v Configk = (Config', Some e).
Proof.
  induction keys as [|k keys IH]; intros Config Config' e Hrun HP.
  { unfold forRange, skip in Hrun. by simplify_eq. }
  destruct (m Config !! k) as [v|] eqn:Hk.
  - rewrite (forRange_visit _ _ _ _ _ _ Hk) in Hrun.
    apply andThen_inv in Hrun as [(Config1 & H1 & H2)|(e' & H1 & ?)].
    + destruct (IH _ _ _ H2) as (j & w & Cj & ? & ? & ? & ?); [by eauto|].
      exists j, w, Cj. split_and!; try done. apply elem_of_cons; auto.
    + simplify_eq. exists k, v, Config. split_and!; try done.
      apply elem_of_cons; auto.
  - rewrite (forRange_absent _ _ _ _ _ Hk) in Hrun.
    destruct (IH _ _ _ Hrun HP) as (j & w & Cj & ? & ? & ? & ?).
    exists j, w, Cj. split_and!; try done. apply elem_of_cons; auto.
Qed.
End failing.

Lemma otherFields_eq (c c' : ConfigType.t) :
  otherFields c = otherFields c' →
  ConfigType.Certificates c = ConfigType.Certificates c' → c = c'.
Proof.
  destruct c, c'. unfold otherFields. simpl. intros ? ?. by simplify_eq.
Qed.

Lemma resolveDirectories_recognized configFilename keys d :
  rangesOver keys (directoriesOf d) → recognizedDirectories d →
  resolveDirectories configFilename keys d = (afterDirectories d, None).
Proof.
  intros Hkeys Hrd.
  destruct (resolveDirectories configFilename keys d) as [Config1 r] eqn:Hrun.
  pose proof (resolveDirectories_preserves
                (λ c, (ConfigType.Directories c, ConfigType.Extensions c,
                       ConfigType.Subject c, ConfigType.KeyFiles c,
                       ConfigType.Combos c, ConfigType.Certificates c,
                       ConfigType.ExtensionKey c, ConfigType.ExtensionCert c))
                configFilename keys (λ _ _, eq_refl) (λ _ _, eq_refl) d) as Hsame.
  rewrite Hrun in Hsame. simpl in Hsame.
  apply resolveDirectories_spec in Hrun; [|done]. destruct r as [e|].
  - destruct Hrun as (k & [v Hk] & Hbad & _). destruct Hbad. by apply (Hrd k v).
  - destruct Hrun as (_ & Hpub & Hpriv). f_equal.
    destruct Config1, d. unfold afterDirectories. simpl in *. by simplify_eq.
Qed.

Lemma resolveExtensions_recognized keys d :
  rangesOver keys (extensionsOf d) → recognizedExtensions d →
  resolveExtensions keys (afterDirectories d) = (afterExtensions d, None).
Proof.
  intros Hkeys Hre.
  destruct (resolveExtensions keys (afterDirectories d)) as [Config2 r] eqn:Hrun.
  pose proof (resolveExtensions_preserves
                (λ c, (ConfigType.Directories c, ConfigType.Extensions c,
                       ConfigType.Subject c, ConfigType.KeyFiles c,
                       ConfigType.Combos c, ConfigType.Certificates c,
                       ConfigType.PublicDirectory c,
                       ConfigType.PrivateDirectory c))
                keys (λ _ _, eq_refl) (λ _ _, eq_refl) (afterDirectories d))
    as Hsame.
  rewrite Hrun in Hsame. simpl in Hsame.
  apply resolveExtensions_spec in Hrun; [|done]. destruct r as [e|].
  - destruct Hrun as (k & v & Hk & Hbad & _). destruct Hbad. by apply (Hre k v).
  - destruct Hrun as (_ & Hkey & Hcert). f_equal.
    change (extensionsOf (afterDirectories d)) with (extensionsOf d) in *.
    destruct Config2, d. unfold afterExtensions, afterDirectories.
    simpl in *. by simplify_eq.
Qed.

Lemma typeAndSubject_recognized keys d :
  rangesOver keys (ConfigType.Certificates d) → recognizedTypes d →
  forRange ConfigType.Certificates typeAndSubject keys (afterExtensions d) =
    (afterFirstLoop d, None).
Proof.
  intros Hkeys Hrt.
  destruct (forRange ConfigType.Certificates typeAndSubject keys
              (afterExtensions d)) as [Config3 r] eqn:Hrun.
  pose proof (typeAndSubject_preserves otherFields keys (λ _ _ _, eq_refl)
                (afterExtensions d)) as Hsame.
  rewrite Hrun in Hsame. simpl in Hsame.
  apply typeAndSubject_spec in Hrun; [|done]. destruct r as [e|].
  - destruct Hrun as (k & cert & Hk & Hbad & _). destruct Hbad.
    by apply (Hrt k cert).
  - destruct Hrun as [_ Hcerts]. f_equal. by apply otherFields_eq.
Qed.

(** on a document whose sections and types are recognized, a run is the
    second loop over the certificates, started from [afterFirstLoop] *)
Lemma GetConfig_second_loop configFilename d order Config :
  validOrder order d →
  recognizedDirectories d → recognizedExtensions d → recognizedTypes d →
  GetConfig configFilename (Parsed d) order Config =
  forRange ConfigType.Certificates linkIssuer (inCertificates2 order)
    (afterFirstLoop d).
Proof.
  intros (Hdirs & Hexts & Hcerts & _) Hrd Hre Hrt. unfold GetConfig.
  rewrite (andThen_ok _ _ _ _
             (resolveDirectories_recognized configFilename _ d Hdirs Hrd)).
  rewrite (andThen_ok _ _ _ _ (resolveExtensions_recognized _ d Hexts Hre)).
  by rewrite (andThen_ok _ _ _ _ (typeAndSubject_recognized _ d Hcerts Hrt)).
Qed.

Lemma linkIssuer_passes k cert Config Config1 :
  ConfigType.Certificates Config !! k = Some cert →
  linkIssuer k cert Config = (Config1, None) →
  ConfigType.Certificates Config1 =
  <[k:=linkedCert cert]> (ConfigType.Certificates Config).
Proof.
  intros Hk. unfold linkIssuer, linkedCert, andThen, assign, returnErr, skip.
  destruct (Cert.IsSelfSigned cert).
  - case_decide; [done|]. intros ?; simplify_eq. by rewrite insert_id.
  - simpl.
    destruct (ConfigType.Certificates Config !! Cert.Issuer cert) as [issuer|];
      [|done].
    destruct (Cert.IsCA issuer); [|done]. simpl. by intros ?; simplify_eq.
Qed.

Lemma linkIssuer_loop_success keys : ∀ Config Config',
  NoDup keys →
  forRange ConfigType.Certificates linkIssuer keys Config = (Config', None) →
  ∀ k, ConfigType.Certificates Config' !! k =
       if decide (k ∈ keys)
       then linkedCert <$> ConfigType.Certificates Config !! k
       else ConfigType.Certificates Config !! k.
Proof.
  induction keys as [|k keys IH]; intros Config Config' Hnodup Hrun j.
  { unfold forRange, skip in Hrun. by simplify_eq. }
  apply NoDup_cons in Hnodup as [Hk Hnodup].
  destruct (ConfigType.Certificates Config !! k) as [cert|] eqn:Hcert.
  - rewrite (forRange_visit _ _ _ _ _ _ Hcert) in Hrun.
    apply andThen_inv in Hrun as [(Config1 & H1 & H2)|(e & _ & ?)]; [|done].
    apply (linkIssuer_passes _ _ _ _ Hcert) in H1.
    rewrite (IH _ _ Hnodup H2 j), H1.
    destruct (decide (j = k)) as [->|Hne].
    + rewrite decide_False by done.
      rewrite decide_True by (apply elem_of_cons; auto).
      by rewrite lookup_insert_eq, Hcert.
    + rewrite lookup_insert_ne by done. destruct (decide (j ∈ keys)).
      * by rewrite decide_True by (apply elem_of_cons; auto).
      * rewrite decide_False; [done|]. by intros [?|?]%elem_of_cons.
  - rewrite (forRange_absent _ _ _ _ _ Hcert) in Hrun.
    rewrite (IH _ _ Hnodup Hrun j).
    destruct (decide (j = k)) as [->|Hne].
    + rewrite decide_False by done.
      rewrite decide_True by (apply elem_of_cons; auto).
      by rewrite Hcert.
    + destruct (decide (j ∈ keys)).
      * by rewrite decide_True by (apply elem_of_cons; auto).
      * rewrite decide_False; [done|]. by intros [?|?]%elem_of_cons.
Qed.

Lemma allEdgesPass_firstFailure d keys :
  rangesOver keys (ConfigType.Certificates d) →
  firstFailure (resolvedCertificates d) keys = None →
  allEdgesPass (resolvedCertificates d).
Proof.
  intros Hkeys Hnone k cert Hk. rewrite firstFailure_None in Hnone.
  apply Hnone; [|done]. apply (rangesOver_elem _ _ _ Hkeys).
  rewrite resolvedCertificates_lookup in Hk.
  by destruct (ConfigType.Certificates d !! k).
Qed.

(** a run that returns no error leaves [resolvedConfig] *)
Lemma GetConfig_success configFilename d order Config :
  validOrder order d →
  (GetConfig configFilename (Parsed d) order Config).2 = None →
  GetConfig configFilename (Parsed d) order Config = (resolvedConfig d, None).
Proof.
  intros Horder Hnone.
  destruct (GetConfig_passes _ _ _ _ Horder Hnone) as (Hrd & Hre & Hrt & _).
  rewrite (GetConfig_second_loop _ _ _ _ Horder Hrd Hre Hrt) in Hnone |- *.
  destruct (forRange ConfigType.Certificates linkIssuer (inCertificates2 order)
              (afterFirstLoop d)) as [Config' r] eqn:Hrun.
  simpl in Hnone. subst r. f_equal.
  pose proof (linkIssuer_preserves otherFields (inCertificates2 order)
                (λ _ _ _, eq_refl) (afterFirstLoop d)) as Hsame.
  rewrite Hrun in Hsame. simpl in Hsame.
  destruct Horder as (_ & _ & _ & Hkeys). pose proof Hkeys as [Hnodup _].
  apply otherFields_eq; [done|]. apply map_eq. intros k.
  rewrite (linkIssuer_loop_success _ _ _ Hnodup Hrun k). simpl.
  rewrite lookup_fmap. case_decide as Hin; [done|].
  rewrite (rangesOver_elem _ _ _ Hkeys) in Hin.
  rewrite resolvedCertificates_lookup.
  destruct (ConfigType.Certificates d !! k); [|done]. by destruct Hin.
Qed.

Lemma GetConfig_accepts configFilename d order Config :
  validOrder order d →
  recognizedDirectories d → recognizedExtensions d → recognizedTypes d →
  allEdgesPass (resolvedCertificates d) →
  (GetConfig configFilename (Parsed d) order Config).2 = None.
Proof.
  intros Horder Hrd Hre Hrt Hpass.
  destruct (GetConfig configFilename (Parsed d) order Config)
    as [Config' r] eqn:Hrun.
  apply GetConfig_recognized in Hrun as (-> & _); [|done..].
  by apply firstFailure_pass.
Qed.

(** ** When a run returns no error *)

(** X1: [GetConfig] returns no error exactly on the documents whose keys under
    directories and extensions are all recognized, whose types are all
    recognized, and whose certificates all pass the check of the second loop
    on their resolved types: a condition on the document alone, whatever
    the order in which the loops visit the maps. *)
Theorem GetConfig_succeeds_iff configFilename d order Config :
  validOrder order d →
  (GetConfig configFilename (Parsed d) order Config).2 = None ↔
  recognizedDirectories d ∧ recognizedExtensions d ∧ recognizedTypes d ∧
  allEdgesPass (resolvedCertificates d).
Proof.
  intros Horder. split.
  - intros (Hrd & Hre & Hrt & Hnone)%GetConfig_passes; [|done].
    split_and!; try done.
    destruct Horder as (_ & _ & _ & Hkeys).
    by eapply allEdgesPass_firstFailure.
  - intros (Hrd & Hre & Hrt & Hpass). by apply GetConfig_accepts.
Qed.

Lemma GetConfig_succeeds_iff_witness :
  (GetConfig "certs.yaml" (Parsed scenarioA)
     (mkOrder [] [] ["server"; "root"] ["root"; "server"]) ConfigType.zero).2 =
    None ↔
  recognizedDirectories scenarioA ∧ recognizedExtensions scenarioA ∧
  recognizedTypes scenarioA ∧ allEdgesPass (resolvedCertificates scenarioA).
Proof.
  apply (GetConfig_succeeds_iff "certs.yaml" scenarioA
           (mkOrder [] [] ["server"; "root"] ["root"; "server"])
           ConfigType.zero).
  repeat split; by_computation.
Defined.

(** X2: Two runs of [GetConfig] on the same decoded document, with whatever
    orders of visit, file names and previous values of [Config], agree as
    soon as one of them returns no error: the other returns no error
    either and leaves the same [Config]. *)
Theorem GetConfig_order_independent configFilename1 configFilename2 d
    order1 order2 Config1 Config2 :
  validOrder order1 d → validOrder order2 d →
  (GetConfig configFilename1 (Parsed d) order1 Config1).2 = None →
  GetConfig configFilename2 (Parsed d) order2 Config2 =
  GetConfig configFilename1 (Parsed d) order1 Config1.
Proof.
  intros Horder1 Horder2 Hnone.
  rewrite (GetConfig_success _ _ _ _ Horder1 Hnone).
  apply GetConfig_success; [done|].
  destruct (GetConfig_passes _ _ _ _ Horder1 Hnone) as (Hrd & Hre & Hrt & Hff).
  apply GetConfig_accepts; try done.
  destruct Horder1 as (_ & _ & _ & Hkeys).
  by eapply allEdgesPass_firstFailure.
Qed.

Lemma GetConfig_order_independent_witness :
  GetConfig "b.yaml" (Parsed scenarioA)
    (mkOrder [] [] ["root"; "server"] ["root"; "server"]) scenarioC =
  GetConfig "a.yaml" (Parsed scenarioA)
    (mkOrder [] [] ["server"; "root"] ["server"; "root"]) ConfigType.zero.
Proof.
  apply GetConfig_order_independent.
  - repeat split; by_computation.
  - repeat split; by_computation.
  - by vm_compute.
Defined.

Lemma getCertType_cases typeString certType :
  getCertType typeString = inl certType →
  (typeString, certType) ∈
    [ ("rootCA", mkCertInfo RootCACert true true);
      ("intermediateCA", mkCertInfo IntermediateCACert true false);
      ("OCSPSigning", mkCertInfo OCSPSigningCert false false);
      ("server", mkCertInfo ServerCert false false);
      ("client", mkCertInfo ClientCert false false) ].
Proof.
  unfold getCertType, theMap. simpl.
  repeat (rewrite lookup_insert; case_decide;
          [subst typeString; intros [= <-]; rewrite !elem_of_cons; tauto|]).
  by rewrite lookup_empty.
Qed.

Lemma resolvedConfig_cell d k cert certType :
  ConfigType.Certificates d !! k = Some cert →
  getCertType (Cert.TypeString cert) = inl certType →
  ConfigType.Certificates (resolvedConfig d) !! k =
  Some (Cert.mk (Cert.TypeString cert) (Cert.Issuer cert)
          (fillSubject (Cert.Subject cert) (ConfigType.Subject d))
          (Cert.Hosts cert)
          (ctype certType) (isCA certType) (isSelfSigned certType)
          (if isSelfSigned certType then Cert.IssuerCert cert
           else Some (Cert.Issuer cert))).
Proof.
  intros Hk Htype. simpl.
  rewrite lookup_fmap, resolvedCertificates_lookup, Hk. simpl.
  rewrite (resolvedCert_inl _ _ _ Htype).
  unfold linkedCert, fillCert, Cert.setSubject, Cert.setInfo. simpl.
  by destruct (isSelfSigned certType).
Qed.

(** X3: When [GetConfig] returns no error, the cell of every certificate of the
    document holds the decoded type tag, issuer name and hosts, the type and
    the two flags that [getCertType] gives for the tag, the subject filled
    in from the default subject of the document, and as [IssuerCert] the
    pointer to the cell of its issuer name; for a self-signed certificate
    [IssuerCert] is left as decoded. *)
Theorem resolved_certificate configFilename d order Config k cert :
  validOrder order d →
  (GetConfig configFilename (Parsed d) order Config).2 = None →
  ConfigType.Certificates d !! k = Some cert →
  ∃ certType,
    getCertType (Cert.TypeString cert) = inl certType ∧
    ConfigType.Certificates
      (GetConfig configFilename (Parsed d) order Config).1 !! k =
    Some (Cert.mk (Cert.TypeString cert) (Cert.Issuer cert)
            (fillSubject (Cert.Subject cert) (ConfigType.Subject d))
            (Cert.Hosts cert)
            (ctype certType) (isCA certType) (isSelfSigned certType)
            (if isSelfSigned certType then Cert.IssuerCert cert
             else Some (Cert.Issuer cert))).
Proof.
  intros Horder Hnone Hk.
  destruct (GetConfig_passes _ _ _ _ Horder Hnone) as (_ & _ & Hrt & _).
  destruct (getCertType_recognized _ (Hrt k cert Hk)) as [certType Htype].
  exists certType. split; [done|].
  rewrite (GetConfig_success _ _ _ _ Horder Hnone).
  by apply resolvedConfig_cell.
Qed.

Lemma resolved_certificate_witness :
  ∃ certType,
    getCertType "server" = inl certType ∧
    ConfigType.Certificates
      (GetConfig "certs.yaml" (Parsed scenarioA)
         (mkOrder [] [] ["server"; "root"] ["root"; "server"])
         ConfigType.zero).1 !! "server" =
    Some (Cert.mk "server" "root" (fillSubject noSubject noSubject) []
            (ctype certType) (isCA certType) (isSelfSigned certType)
            (if isSelfSigned certType then None else Some "root")).
Proof.
  apply (resolved_certificate "certs.yaml" scenarioA
           (mkOrder [] [] ["server"; "root"] ["root"; "server"])
           ConfigType.zero "server" (decodedCert "server" "root")).
  - repeat split; by_computation.
  - by vm_compute.
  - reflexivity.
Defined.

(** X4: When [GetConfig] returns no error, a certificate of [Config] that is
    self-signed has the type tag rootCA and an empty issuer name, and each of
    the fields O, OU and CN of its subject, as of any other certificate, is
    empty only if the field is empty both in the decoded certificate and in
    the default subject of the document. *)
Theorem resolved_root_and_subject configFilename d order Config Config' k cert' :
  validOrder order d →
  GetConfig configFilename (Parsed d) order Config = (Config', None) →
  ConfigType.Certificates Config' !! k = Some cert' →
  (Cert.IsSelfSigned cert' = true →
   Cert.TypeString cert' = "rootCA" ∧ Cert.Issuer cert' = EmptyString) ∧
  ∃ cert,
    ConfigType.Certificates d !! k = Some cert ∧
    (SubjectType.O (Cert.Subject cert') = EmptyString ↔
     SubjectType.O (Cert.Subject cert) = EmptyString ∧
     SubjectType.O (ConfigType.Subject d) = EmptyString) ∧
    (SubjectType.OU (Cert.Subject cert') = EmptyString ↔
     SubjectType.OU (Cert.Subject cert) = EmptyString ∧
     SubjectType.OU (ConfigType.Subject d) = EmptyString) ∧
    (SubjectType.CN (Cert.Subject cert') = EmptyString ↔
     SubjectType.CN (Cert.Subject cert) = EmptyString ∧
     SubjectType.CN (ConfigType.Subject d) = EmptyString).
Proof.
  intros Horder Hrun Hk.
  assert ((GetConfig configFilename (Parsed d) order Config).2 = None) as Hnone
    by by rewrite Hrun.
  destruct (GetConfig_passes _ _ _ _ Horder Hnone) as (_ & _ & Hrt & Hff).
  pose proof (GetConfig_cell configFilename d order Config k) as Hcell.
  rewrite Hrun in Hcell. simpl in Hcell. rewrite Hk in Hcell.
  destruct (ConfigType.Certificates d !! k) as [cert|] eqn:Hd; [|done].
  destruct (getCertType_recognized _ (Hrt k cert Hd)) as [certType Htype].
  pose proof (GetConfig_success _ _ _ _ Horder Hnone) as Hres.
  rewrite Hrun in Hres. injection Hres as ->.
  rewrite (resolvedConfig_cell _ _ _ _ Hd Htype) in Hk.
  injection Hk as <-. simpl. split.
  - intros Hself.
    assert (issuerCheck (resolvedCertificates d) k
              (resolvedCert (ConfigType.Subject d) cert) = None) as Hcheck.
    { destruct Horder as (_ & _ & _ & Hkeys).
      apply (allEdgesPass_firstFailure _ _ Hkeys Hff).
      by rewrite resolvedCertificates_lookup, Hd. }
    destruct (resolvedCert_fields (ConfigType.Subject d) cert certType Htype)
      as (HI & HS & _).
    unfold issuerCheck in Hcheck. rewrite HS, Hself, HI in Hcheck.
    split.
    + apply getCertType_cases in Htype.
      repeat (apply elem_of_cons in Htype as [[= Ht ->]|Htype];
              [simpl in Hself; done|]).
      by apply elem_of_nil in Htype.
    + case_decide as Hissuer; [done|].
      destruct (decide (Cert.Issuer cert = EmptyString)); [done|].
      by destruct Hissuer.
  - exists cert. split; [done|].
    split_and!; case_decide; tauto.
Qed.

Lemma resolved_root_and_subject_witness :
  let root := Cert.mk "rootCA" EmptyString noSubject [] 0 true true None in
  (Cert.IsSelfSigned root = true →
   Cert.TypeString root = "rootCA" ∧ Cert.Issuer root = EmptyString) ∧
  ∃ cert,
    ConfigType.Certificates scenarioA !! "root" = Some cert ∧
    (SubjectType.O (Cert.Subject root) = EmptyString ↔
     SubjectType.O (Cert.Subject cert) = EmptyString ∧
     SubjectType.O (ConfigType.Subject scenarioA) = EmptyString) ∧
    (SubjectType.OU (Cert.Subject root) = EmptyString ↔
     SubjectType.OU (Cert.Subject cert) = EmptyString ∧
     SubjectType.OU (ConfigType.Subject scenarioA) = EmptyString) ∧
    (SubjectType.CN (Cert.Subject root) = EmptyString ↔
     SubjectType.CN (Cert.Subject cert) = EmptyString ∧
     SubjectType.CN (ConfigType.Subject scenarioA) = EmptyString).
Proof.
  intros root.
  apply (resolved_root_and_subject "certs.yaml" scenarioA
           (mkOrder [] [] ["server"; "root"] ["root"; "server"])
           ConfigType.zero
           (GetConfig "certs.yaml" (Parsed scenarioA)
              (mkOrder [] [] ["server"; "root"] ["root"; "server"])
              ConfigType.zero).1 "root" root).
  - repeat split; by_computation.
  - by vm_compute.
  - by vm_compute.
Defined.

(** ** The errors that a run returns *)

Lemma firstFailure_Some certs keys e :
  firstFailure certs keys = Some e →
  ∃ k cert, k ∈ keys ∧ certs !! k = Some cert ∧ issuerCheck certs k cert = Some e.
Proof.
  induction keys as [|k keys IH]; [done|]. simpl.
  destruct (certs !! k) as [cert|] eqn:Hk.
  - destruct (issuerCheck certs k cert) as [e'|] eqn:Hcheck.
    + intros ?; simplify_eq. exists k, cert. split_and!; try done.
      apply elem_of_cons; auto.
    + intros (j & c & ? & ? & ?)%IH. exists j, c. split_and!; try done.
      apply elem_of_cons; auto.
  - intros (j & c & ? & ? & ?)%IH. exists j, c. split_and!; try done.
    apply elem_of_cons; auto.
Qed.

(** an error of the second loop is the outcome of the check of a
    certificate of the document, on the resolved store *)
Lemma GetConfig_error_of_check configFilename d order Config e :
  validOrder order d →
  (GetConfig configFilename (Parsed d) order Config).2 = Some e →
  fromSecondLoop e →
  recognizedDirectories d ∧ recognizedExtensions d ∧ recognizedTypes d ∧
  ∃ k cert certType,
    ConfigType.Certificates d !! k = Some cert ∧
    getCertType (Cert.TypeString cert) = inl certType ∧
    issuerCheck (resolvedCertificates d) k
      (resolvedCert (ConfigType.Subject d) cert) = Some e.
Proof.
  intros Horder Herr Hkind.
  destruct (GetConfig configFilename (Parsed d) order Config)
    as [Config' r] eqn:Hrun. simpl in Herr. subst r.
  apply GetConfig_stages in Hrun
    as [(? & _ & _ & ?)|[(_ & ? & ? & _ & _ & ?)|
        [(_ & _ & ? & ? & _ & _ & ?)|(Hrd & Hre & Hrt & Hff & _)]]];
    [by simplify_eq..| |done].
  split_and!; try done.
  symmetry in Hff. apply firstFailure_Some in Hff as (k & rc & _ & Hk & Hcheck).
  rewrite resolvedCertificates_lookup in Hk.
  destruct (ConfigType.Certificates d !! k) as [cert|] eqn:Hd; [|done].
  simpl in Hk. injection Hk as <-.
  destruct (getCertType_recognized _ (Hrt k cert Hd)) as [certType Htype].
  by exists k, cert, certType.
Qed.

(** X5: When [GetConfig] returns the error of line 171 for the names [a] and
    [b], the document has a certificate [a] of a recognized type that is not
    self-signed, its issuer name is [b], and [b] is not a key of the
    certificates: the error is never returned for an issuer that the
    document has. *)
Theorem MissingIssuer_is_sound configFilename d order Config a b :
  validOrder order d →
  (GetConfig configFilename (Parsed d) order Config).2 =
    Some (MissingIssuer a b) →
  ∃ cert certType,
    ConfigType.Certificates d !! a = Some cert ∧
    getCertType (Cert.TypeString cert) = inl certType ∧
    isSelfSigned certType = false ∧
    Cert.Issuer cert = b ∧
    ConfigType.Certificates d !! b = None.
Proof.
  intros Horder Herr.
  destruct (GetConfig_error_of_check _ _ _ _ _ Horder Herr I)
    as (_ & _ & _ & k & cert & certType & Hk & Htype & Hcheck).
  destruct (resolvedCert_fields (ConfigType.Subject d) cert certType Htype)
    as (HI & HS & _).
  unfold issuerCheck in Hcheck. rewrite HS, HI in Hcheck.
  destruct (isSelfSigned certType) eqn:Hself; [by case_decide|].
  rewrite resolvedCertificates_lookup in Hcheck.
  destruct (ConfigType.Certificates d !! Cert.Issuer cert) as [issuer|] eqn:Hi.
  - simpl in Hcheck. by case_match.
  - simpl in Hcheck. simplify_eq. by exists cert, certType.
Qed.

Lemma MissingIssuer_is_sound_witness :
  ∃ cert certType,
    ConfigType.Certificates scenarioD !! "server" = Some cert ∧
    getCertType (Cert.TypeString cert) = inl certType ∧
    isSelfSigned certType = false ∧
    Cert.Issuer cert = "ghost" ∧
    ConfigType.Certificates scenarioD !! "ghost" = None.
Proof.
  apply (MissingIssuer_is_sound "certs.yaml" scenarioD
           (mkOrder [] [] ["server"] ["server"]) ConfigType.zero).
  - repeat split; by_computation.
  - by vm_compute.
Defined.

(** X6: When [GetConfig] returns the error of line 174 for the names [a] and
    [b], the document has a certificate [a] of a recognized type that is not
    self-signed, its issuer name is [b], and [b] is a certificate of the
    document whose type is recognized and is not an authority. *)
Theorem IssuerNotAuthority_is_sound configFilename d order Config a b :
  validOrder order d →
  (GetConfig configFilename (Parsed d) order Config).2 =
    Some (IssuerNotAuthority a b) →
  ∃ cert certType issuer issuerType,
    ConfigType.Certificates d !! a = Some cert ∧
    getCertType (Cert.TypeString cert) = inl certType ∧
    isSelfSigned certType = false ∧
    Cert.Issuer cert = b ∧
    ConfigType.Certificates d !! b = Some issuer ∧
    getCertType (Cert.TypeString issuer) = inl issuerType ∧
    isCA issuerType = false.
Proof.
  intros Horder Herr.
  destruct (GetConfig_error_of_check _ _ _ _ _ Horder Herr I)
    as (_ & _ & Hrt & k & cert & certType & Hk & Htype & Hcheck).
  destruct (resolvedCert_fields (ConfigType.Subject d) cert certType Htype)
    as (HI & HS & _).
  unfold issuerCheck in Hcheck. rewrite HS, HI in Hcheck.
  destruct (isSelfSigned certType) eqn:Hself; [by case_decide|].
  rewrite resolvedCertificates_lookup in Hcheck.
  destruct (ConfigType.Certificates d !! Cert.Issuer cert) as [issuer|] eqn:Hi;
    simpl in Hcheck; [|done].
  destruct (getCertType_recognized _ (Hrt _ issuer Hi)) as [issuerType Hitype].
  destruct (resolvedCert_fields (ConfigType.Subject d) issuer issuerType Hitype)
    as (_ & _ & HC).
  rewrite HC in Hcheck. destruct (isCA issuerType) eqn:HCA; [done|].
  simpl in Hcheck. simplify_eq.
  by exists cert, certType, issuer, issuerType.
Qed.

Lemma IssuerNotAuthority_is_sound_witness :
  ∃ cert certType issuer issuerType,
    ConfigType.Certificates scenarioB !! "server" = Some cert ∧
    getCertType (Cert.TypeString cert) = inl certType ∧
    isSelfSigned certType = false ∧
    Cert.Issuer cert = "client" ∧
    ConfigType.Certificates scenarioB !! "client" = Some issuer ∧
    getCertType (Cert.TypeString issuer) = inl issuerType ∧
    isCA issuerType = false.
Proof.
  apply (IssuerNotAuthority_is_sound "certs.yaml" scenarioB
           (mkOrder [] [] ["client"; "root"; "server"]
                    ["root"; "client"; "server"]) ConfigType.zero).
  - repeat split; by_computation.
  - by vm_compute.
Defined.

(** X7: When [GetConfig] returns the error of line 165 for the name [a], the
    document has a certificate [a] with the type tag rootCA and a non-empty
    issuer name. *)
Theorem SelfSignedWithIssuer_is_sound configFilename d order Config a :
  validOrder order d →
  (GetConfig configFilename (Parsed d) order Config).2 =
    Some (SelfSignedWithIssuer a) →
  ∃ cert,
    ConfigType.Certificates d !! a = Some cert ∧
    Cert.TypeString cert = "rootCA" ∧
    Cert.Issuer cert ≠ EmptyString.
Proof.
  intros Horder Herr.
  destruct (GetConfig_error_of_check _ _ _ _ _ Horder Herr I)
    as (_ & _ & _ & k & cert & certType & Hk & Htype & Hcheck).
  destruct (resolvedCert_fields (ConfigType.Subject d) cert certType Htype)
    as (HI & HS & _).
  unfold issuerCheck in Hcheck. rewrite HS, HI in Hcheck.
  destruct (isSelfSigned certType) eqn:Hself.
  - case_decide as Hissuer; [|done]. simplify_eq.
    exists cert. split_and!; try done.
    apply getCertType_cases in Htype.
    repeat (apply elem_of_cons in Htype as [[= Ht ->]|Htype];
            [simpl in Hself; done|]).
    by apply elem_of_nil in Htype.
  - destruct (resolvedCertificates d !! Cert.Issuer cert) as [issuer|];
      [by case_match|done].
Qed.

Lemma SelfSignedWithIssuer_is_sound_witness :
  ∃ cert,
    ConfigType.Certificates scenarioC !! "root" = Some cert ∧
    Cert.TypeString cert = "rootCA" ∧
    Cert.Issuer cert ≠ EmptyString.
Proof.
  apply (SelfSignedWithIssuer_is_sound "certs.yaml" scenarioC
           (mkOrder [] [] ["root"] ["root"]) ConfigType.zero).
  - repeat split; by_computation.
  - by vm_compute.
Defined.

(** ** Which stage returns, and what it leaves *)

(** X8: When a key under directories is not recognized, [GetConfig] returns the
    error of line 118 for an unrecognized key of directories, whatever else
    the document holds, and nothing after the loop over the directories has
    run: the certificates are as decoded, and the two extensions are not
    even set to their defaults. *)
Theorem directories_error_first configFilename d order Config k :
  validOrder order d →
  is_Some (directoriesOf d !! k) → ¬ recognizedDirectory k →
  ∃ k',
    is_Some (directoriesOf d !! k') ∧ ¬ recognizedDirectory k' ∧
    (GetConfig configFilename (Parsed d) order Config).2 =
      Some (UnrecognizedDirectoryKey k' configFilename) ∧
    ConfigType.Certificates (GetConfig configFilename (Parsed d) order Config).1 =
      ConfigType.Certificates d ∧
    ConfigType.ExtensionKey (GetConfig configFilename (Parsed d) order Config).1 =
      ConfigType.ExtensionKey d ∧
    ConfigType.ExtensionCert (GetConfig configFilename (Parsed d) order Config).1 =
      ConfigType.ExtensionCert d.
Proof.
  intros (Hdirs & _) [v Hk] Hbad. unfold GetConfig.
  destruct (resolveDirectories configFilename (inDirectories order) d)
    as [Config1 r] eqn:Hrun.
  pose proof (resolveDirectories_preserves
                (λ c, (ConfigType.Certificates c, ConfigType.ExtensionKey c,
                       ConfigType.ExtensionCert c))
                configFilename (inDirectories order)
                (λ _ _, eq_refl) (λ _ _, eq_refl) d) as Hsame.
  rewrite Hrun in Hsame. simpl in Hsame.
  pose proof Hrun as Hspec.
  apply resolveDirectories_spec in Hspec; [|done]. destruct r as [e|].
  - destruct Hspec as (k' & Hk' & Hbad' & ->).
    rewrite (andThen_err _ _ _ _ _ Hrun). simpl.
    exists k'. by simplify_eq.
  - destruct Hspec as (Hrd & _). destruct Hbad. by apply (Hrd k v).
Qed.

Lemma directories_error_first_witness :
  ∃ k',
    is_Some (directoriesOf scenarioB_badDirectory !! k') ∧
    ¬ recognizedDirectory k' ∧
    (GetConfig "certs.yaml" (Parsed scenarioB_badDirectory)
       (mkOrder ["backup"] [] ["root"; "client"; "server"]
                ["root"; "client"; "server"]) ConfigType.zero).2 =
      Some (UnrecognizedDirectoryKey k' "certs.yaml") ∧
    ConfigType.Certificates
      (GetConfig "certs.yaml" (Parsed scenarioB_badDirectory)
         (mkOrder ["backup"] [] ["root"; "client"; "server"]
                  ["root"; "client"; "server"]) ConfigType.zero).1 =
      ConfigType.Certificates scenarioB_badDirectory ∧
    ConfigType.ExtensionKey
      (GetConfig "certs.yaml" (Parsed scenarioB_badDirectory)
         (mkOrder ["backup"] [] ["root"; "client"; "server"]
                  ["root"; "client"; "server"]) ConfigType.zero).1 =
      ConfigType.ExtensionKey scenarioB_badDirectory ∧
    ConfigType.ExtensionCert
      (GetConfig "certs.yaml" (Parsed scenarioB_badDirectory)
         (mkOrder ["backup"] [] ["root"; "client"; "server"]
                  ["root"; "client"; "server"]) ConfigType.zero).1 =
      ConfigType.ExtensionCert scenarioB_badDirectory.
Proof.
  apply (directories_error_first "certs.yaml" scenarioB_badDirectory
           _ ConfigType.zero "backup").
  - repeat split; by_computation.
  - by_computation.
  - by_computation.
Defined.

(** X9: When the keys under directories are recognized and a key under
    extensions is not, [GetConfig] returns the error of line 133 for an
    unrecognized key of extensions and the value under that key: the message
    ends with that value where the message of line 118 has the file name.
    The two directories are resolved by then and the certificates are as
    decoded. *)
Theorem extensions_error_second configFilename d order Config k :
  validOrder order d → recognizedDirectories d →
  is_Some (extensionsOf d !! k) → ¬ recognizedExtension k →
  ∃ k' ext,
    extensionsOf d !! k' = Some ext ∧ ¬ recognizedExtension k' ∧
    (GetConfig configFilename (Parsed d) order Config).2 =
      Some (UnrecognizedExtensionKey k' ext) ∧
    Error (UnrecognizedExtensionKey k' ext) =
      "invalid entry " +:+ k' +:+
      " in extensions section of config file " +:+ ext ∧
    ConfigType.Certificates (GetConfig configFilename (Parsed d) order Config).1 =
      ConfigType.Certificates d ∧
    ConfigType.PublicDirectory (GetConfig configFilename (Parsed d) order Config).1 =
      default "tls" (directoriesOf d !! "public") ∧
    ConfigType.PrivateDirectory (GetConfig configFilename (Parsed d) order Config).1 =
      default "tls/private" (directoriesOf d !! "private").
Proof.
  intros (Hdirs & Hexts & _) Hrd [v Hk] Hbad. unfold GetConfig.
  rewrite (andThen_ok _ _ _ _
             (resolveDirectories_recognized configFilename _ d Hdirs Hrd)).
  destruct (resolveExtensions (inExtensions order) (afterDirectories d))
    as [Config2 r] eqn:Hrun.
  pose proof (resolveExtensions_preserves
                (λ c, (ConfigType.Certificates c, ConfigType.PublicDirectory c,
                       ConfigType.PrivateDirectory c))
                (inExtensions order) (λ _ _, eq_refl) (λ _ _, eq_refl)
                (afterDirectories d)) as Hsame.
  rewrite Hrun in Hsame. simpl in Hsame.
  pose proof Hrun as Hspec.
  apply resolveExtensions_spec in Hspec; [|done]. destruct r as [e|].
  - destruct Hspec as (k' & ext & Hk' & Hbad' & ->).
    rewrite (andThen_err _ _ _ _ _ Hrun). simpl.
    exists k', ext. by simplify_eq.
  - destruct Hspec as (Hre & _). destruct Hbad. by apply (Hre k v).
Qed.

Lemma extensions_error_second_witness :
  ∃ k' ext,
    extensionsOf scenarioC_badExtension !! k' = Some ext ∧
    ¬ recognizedExtension k' ∧
    (GetConfig "certs.yaml" (Parsed scenarioC_badExtension)
       (mkOrder [] ["csr"] ["root"] ["root"]) ConfigType.zero).2 =
      Some (UnrecognizedExtensionKey k' ext) ∧
    Error (UnrecognizedExtensionKey k' ext) =
      "invalid entry " +:+ k' +:+
      " in extensions section of config file " +:+ ext ∧
    ConfigType.Certificates
      (GetConfig "certs.yaml" (Parsed scenarioC_badExtension)
         (mkOrder [] ["csr"] ["root"] ["root"]) ConfigType.zero).1 =
      ConfigType.Certificates scenarioC_badExtension ∧
    ConfigType.PublicDirectory
      (GetConfig "certs.yaml" (Parsed scenarioC_badExtension)
         (mkOrder [] ["csr"] ["root"] ["root"]) ConfigType.zero).1 =
      default "tls" (directoriesOf scenarioC_badExtension !! "public") ∧
    ConfigType.PrivateDirectory
      (GetConfig "certs.yaml" (Parsed scenarioC_badExtension)
         (mkOrder [] ["csr"] ["root"] ["root"]) ConfigType.zero).1 =
      default "tls/private" (directoriesOf scenarioC_badExtension !! "private").
Proof.
  apply (extensions_error_second "certs.yaml" scenarioC_badExtension
           _ ConfigType.zero "csr").
  - repeat split; by_computation.
  - by_computation.
  - by_computation.
  - by_computation.
Defined.




(** X11: The assignment of line 169 comes before the checks of lines 170-176.
    When [GetConfig] returns the error of line 174 for [a] and [b], the cell
    of [a] in [Config] already points to the cell of [b], which is not an
    authority; when it returns the error of line 171 for [a], the
    [IssuerCert] of [a] has been set to [nil]. *)
Theorem failed_link_is_written configFilename d order Config Config' a b :
  validOrder order d →
  (GetConfig configFilename (Parsed d) order Config = 
     (Config', Some (IssuerNotAuthority a b)) →
   ∃ cert issuer,
     ConfigType.Certificates Config' !! a = Some cert ∧
     Cert.IssuerCert cert = Some b ∧
     ConfigType.Certificates Config' !! b = Some issuer ∧
     Cert.IsCA issuer = false) ∧
  (GetConfig configFilename (Parsed d) order Config =
     (Config', Some (MissingIssuer a b)) →
   ∃ cert,
     ConfigType.Certificates Config' !! a = Some cert ∧
     Cert.IssuerCert cert = None ∧
     ConfigType.Certificates Config' !! b = None).
Proof.
  intros Horder.
  assert (∀ e, fromSecondLoop e →
            GetConfig configFilename (Parsed d) order Config = (Config', Some e) →
            ∃ k cert Configk,
              ConfigType.Certificates Configk !! k = Some cert ∧
              linkIssuer k cert Configk = (Config', Some e)) as Hvisit.
  { intros e Hkind Hrun.
    assert ((GetConfig configFilename (Parsed d) order Config).2 = Some e)
      as Herr by by rewrite Hrun.
    destruct (GetConfig_error_of_check _ _ _ _ _ Horder Herr Hkind)
      as (Hrd & Hre & Hrt & _).
    rewrite (GetConfig_second_loop _ _ _ _ Horder Hrd Hre Hrt) in Hrun.
    apply (forRange_failing _ _ (λ _, True)) in Hrun
      as (k & cert & Configk & _ & _ & ? & ?); [|done..].
    by exists k, cert, Configk. }
  split; intros Hrun; apply Hvisit in Hrun as (k & cert & Configk & Hk & Hrun);
    try done; revert Hrun;
    unfold linkIssuer, andThen, assign, returnErr, skip;
    (destruct (Cert.IsSelfSigned cert); [by case_decide|]); simpl;
    destruct (ConfigType.Certificates Configk !! Cert.Issuer cert)
      as [issuer|] eqn:Hissuer; simpl;
    try (destruct (Cert.IsCA issuer) eqn:HCA; simpl);
    intros ?; simplify_eq; simpl.
  - destruct (decide (a = Cert.Issuer cert)) as [Heq|Hne].
    + rewrite <- Heq in *. simplify_eq.
      eexists _, _. rewrite lookup_insert_eq. by split_and!.
    + exists (Cert.setIssuerCert (Some (Cert.Issuer cert)) cert), issuer.
      rewrite lookup_insert_eq, lookup_insert_ne by done. by split_and!.
  - eexists. rewrite lookup_insert_eq. split_and!; [done|done|].
    rewrite lookup_insert_ne; [done|]. intros Heq.
    rewrite <- Heq in Hissuer. by simplify_eq.
Qed.

Lemma failed_link_is_written_witness :
  let Config' :=
    (GetConfig "certs.yaml" (Parsed scenarioB)
       (mkOrder [] [] ["client"; "root"; "server"] ["root"; "client"; "server"])
       ConfigType.zero).1 in
  ∃ cert issuer,
    ConfigType.Certificates Config' !! "server" = Some cert ∧
    Cert.IssuerCert cert = Some "client" ∧
    ConfigType.Certificates Config' !! "client" = Some issuer ∧
    Cert.IsCA issuer = false.
Proof.
  intros Config'.
  apply (failed_link_is_written "certs.yaml" scenarioB
           (mkOrder [] [] ["client"; "root"; "server"]
                    ["root"; "client"; "server"])
           ConfigType.zero Config' "server" "client").
  - repeat split; by_computation.
  - by vm_compute.
Defined.

(** ** The chains of issuers *)




(** ** The table of types *)

(** X13: For the tags that [getCertType] recognizes: a type is self-signed
    exactly for the tag rootCA, an authority exactly for the tags rootCA
    and intermediateCA, so that every self-signed type is an authority; and
    the number of the type determines the tag. *)
Theorem getCertType_flags typeString certType :
  getCertType typeString = inl certType →
  (isSelfSigned certType = true ↔ typeString = "rootCA") ∧
  (isCA certType = true ↔
   typeString = "rootCA" ∨ typeString = "intermediateCA") ∧
  (isSelfSigned certType = true → isCA certType = true) ∧
  (0 ≤ ctype certType ≤ 4)%Z ∧
  ∀ typeString' certType',
    getCertType typeString' = inl certType' →
    ctype certType' = ctype certType → typeString' = typeString.
Proof.
  intros Htype%getCertType_cases.
  repeat (apply elem_of_cons in Htype as [Heq|Htype];
          [injection Heq as -> ->;
           split_and!; [by_computation..|];
           intros t' c' Ht'%getCertType_cases;
           repeat (apply elem_of_cons in Ht' as [Heq'|Ht'];
                   [injection Heq' as -> ->; intros Hc;
                    first [reflexivity | by compute in Hc]|]);
           by apply elem_of_nil in Ht'|]).
  by apply elem_of_nil in Htype.
Qed.

Lemma getCertType_flags_witness :
  (isSelfSigned (mkCertInfo IntermediateCACert true false) = true ↔
   "intermediateCA" = "rootCA") ∧
  (isCA (mkCertInfo IntermediateCACert true false) = true ↔
   "intermediateCA" = "rootCA" ∨ "intermediateCA" = "intermediateCA").
Proof.
  destruct (getCertType_flags "intermediateCA"
              (mkCertInfo IntermediateCACert true false) eq_refl)
    as (H1 & H2 & _).
  by split.
Defined.

(** ** What an error of a run can be *)

Lemma forRange_errors {V} (m : ConfigType.t → gmap string V)
    (body : string → V → stmt) (Q : error → Prop) keys :
  (∀ k v c c' e, body k v c = (c', Some e) → Q e) →
  ∀ c c' e, forRange m body keys c = (c', Some e) → Q e.
Proof.
  intros Hbody c c' e Hrun.
  apply (forRange_failing m body (λ _, True)) in Hrun
    as (k & v & ck & _ & _ & _ & Hb); [by eauto|done..].
Qed.

(** X14: Once the document is decoded, [GetConfig] returns only the errors of
    its own loops, in whatever order they visit the maps: never the error of
    a failed read or decoding, and never the error that [getCertType]
    builds, which line 147 replaces; the error of line 118 carries the file
    name of the call. *)
Theorem GetConfig_returns_validation_errors configFilename d order Config e :
  (GetConfig configFilename (Parsed d) order Config).2 = Some e →
  validationError configFilename e.
Proof.
  destruct (GetConfig configFilename (Parsed d) order Config)
    as [Config' r] eqn:Hrun. simpl. intros ->. unfold GetConfig in Hrun.
  apply andThen_inv in Hrun as [(Config1 & _ & Hrun)|(e1 & Hrun & ?)]; cycle 1.
  { simplify_eq. revert Hrun.
    unfold resolveDirectories, andThen at 1 2, assign, skip. simpl.
    destruct (ConfigType.Directories d); [|done].
    apply forRange_errors. intros k v c c' e'. unfold directoriesCase.
    repeat case_decide; unfold assign, returnErr; intros ?; by simplify_eq. }
  apply andThen_inv in Hrun as [(Config2 & _ & Hrun)|(e2 & Hrun & ?)]; cycle 1.
  { simplify_eq. revert Hrun.
    unfold resolveExtensions, andThen at 1 2, assign, skip. simpl.
    destruct (ConfigType.Extensions Config1); [|done].
    apply forRange_errors. intros k v c c' e'. unfold extensionsCase.
    repeat case_decide; unfold assign, returnErr; intros ?; by simplify_eq. }
  apply andThen_inv in Hrun as [(Config3 & _ & Hrun)|(e3 & Hrun & ?)]; cycle 1.
  { simplify_eq. revert Hrun.
    apply forRange_errors. intros k v c c' e'.
    unfold typeAndSubject, assign, returnErr.
    destruct (getCertType (Cert.TypeString v)); intros ?; by simplify_eq. }
  revert Hrun. apply forRange_errors. intros k v c c' e'.
  unfold linkIssuer, andThen, assign, returnErr, skip.
  destruct (Cert.IsSelfSigned v).
  { case_decide; intros ?; by simplify_eq. }
  simpl. destruct (ConfigType.Certificates c !! Cert.Issuer v) as [issuer|];
    simpl; [|intros ?; by simplify_eq].
  destruct (Cert.IsCA issuer); simpl; intros ?; by simplify_eq.
Qed.

Lemma GetConfig_returns_validation_errors_witness :
  validationError "certs.yaml" (UnrecognizedDirectoryKey "backup" "certs.yaml").
Proof.
  apply (GetConfig_returns_validation_errors "certs.yaml" twoBadDirectories
           (mkOrder ["backup"; "cache"] [] [] []) ConfigType.zero).
  by vm_compute.
Defined.

(** X15: Every error that [GetConfig] returns on a decoded document names an
    entry of that document: the message contains a key of directories, a
    key of extensions, or the name of a certificate. *)
Theorem error_names_an_entry configFilename d order Config e :
  validOrder order d →
  (GetConfig configFilename (Parsed d) order Config).2 = Some e →
  ∃ k, entryOf d k ∧ names e k.
Proof.
  intros Horder Herr.
  destruct (GetConfig configFilename (Parsed d) order Config)
    as [Config' r] eqn:Hrun. simpl in Herr. subst r.
  apply GetConfig_stages in Hrun
    as [(k & Hk & _ & ?)|[(_ & k & v & Hk & _ & ?)|
        [(_ & _ & k & cert & Hk & _ & ?)|(_ & _ & _ & Hff & _)]]];
    [..|done]; simplify_eq.
  - exists k. split; [by left|apply names_UnrecognizedDirectoryKey].
  - exists k. split; [|apply names_UnrecognizedExtensionKey].
    right; left. by rewrite Hk.
  - exists k. split; [|apply names_InvalidCertificateType].
    right; right. by rewrite Hk.
  - symmetry in Hff.
    apply firstFailure_Some in Hff as (k & rc & _ & Hk & Hcheck).
    exists k. split.
    + right; right. rewrite resolvedCertificates_lookup in Hk.
      by destruct (ConfigType.Certificates d !! k).
    + revert Hcheck. unfold issuerCheck.
      destruct (Cert.IsSelfSigned rc).
      { case_decide; intros ?; simplify_eq.
        apply names_SelfSignedWithIssuer. }
      destruct (resolvedCertificates d !! Cert.Issuer rc) as [issuer|].
      * destruct (Cert.IsCA issuer); simpl; intros ?; simplify_eq.
        apply names_IssuerNotAuthority.
      * intros ?; simplify_eq. apply names_MissingIssuer.
Qed.

Lemma error_names_an_entry_witness :
  ∃ k, entryOf scenarioD k ∧ names (MissingIssuer "server" "ghost") k.
Proof.
  apply (error_names_an_entry "certs.yaml" scenarioD
           (mkOrder [] [] ["server"] ["server"]) ConfigType.zero).
  - repeat split; by_computation.
  - by vm_compute.
Defined.

(** * The claims whose statements need the lemmas above *)

(** ** The message for an unrecognized type *)

(** C2: [getCertType] fails for a tag that its table does not have, and
    [GetConfig] then returns the error of line 147.  The call passes the name
    of the certificate and then the tag to a format that reads the type
    first and the certificate second, so that the message gives the name of
    the certificate as the type and the tag as the certificate: for the
    certificate web of type bogus it is "invalid type web for certificate
    bogus". *)
Theorem invalid_type_message_is_swapped :
  (∀ certName cert Config,
     ¬ recognized (Cert.TypeString cert) →
     getCertType (Cert.TypeString cert) =
       inr (InvalidTypeString (Cert.TypeString cert)) ∧
     typeAndSubject certName cert Config =
       (Config, Some (InvalidCertificateType certName (Cert.TypeString cert))) ∧
     Error (InvalidCertificateType certName (Cert.TypeString cert)) =
       "invalid type " +:+ certName +:+ " for certificate " +:+
       Cert.TypeString cert) ∧
  (GetConfig "certs.yaml" (Parsed badTypeDocument)
     (mkOrder [] [] ["web"] ["web"]) ConfigType.zero).2 =
    Some (InvalidCertificateType "web" "bogus") ∧
  Error (InvalidCertificateType "web" "bogus") =
    "invalid type web for certificate bogus" ∧
  Error (InvalidCertificateType "web" "bogus") ≠
    "invalid type bogus for certificate web".
Proof.
  split_and!; [|by vm_compute..].
  intros certName cert Config Hbad.
  assert (getCertType (Cert.TypeString cert) =
          inr (InvalidTypeString (Cert.TypeString cert))) as Hfail.
  { unfold getCertType. unfold recognized in Hbad.
    destruct (theMap !! Cert.TypeString cert) as [certType|]; [|done].
    destruct Hbad. by eexists. }
  split_and!; [done| |done].
  unfold typeAndSubject. by rewrite Hfail.
Qed.

Lemma invalid_type_message_is_swapped_witness :
  typeAndSubject "web" (decodedCert "bogus" EmptyString) badTypeDocument =
    (badTypeDocument, Some (InvalidCertificateType "web" "bogus")) ∧
  Error (InvalidCertificateType "web" "bogus") =
    "invalid type web for certificate bogus".
Proof.
  destruct invalid_type_message_is_swapped as (Hany & _ & Hmessage & _).
  destruct (Hany "web" (decodedCert "bogus" EmptyString) badTypeDocument)
    as (_ & Hrun & _).
  - by_computation.
  - split; [exact Hrun|exact Hmessage].
Defined.

(** ** What a run keeps of the decoded certificates *)



Lemma maintains_forRange {V} (m : ConfigType.t → gmap string V)
    (body : string → V → stmt) P keys :
  (∀ k v Config, m Config !! k = Some v → P Config → P (body k v Config).1) →
  maintains P (forRange m body keys).
Proof.
  intros Hbody. induction keys as [|k keys IH]; intros Config HP; [done|].
  destruct (m Config !! k) as [v|] eqn:Hk.
  - rewrite (forRange_visit _ _ _ _ _ _ Hk). unfold andThen.
    specialize (Hbody k v Config Hk HP).
    destruct (body k v Config) as [Config1 [e|]]; [done|]. by apply IH.
  - rewrite (forRange_absent _ _ _ _ _ Hk). by apply IH.
Qed.

Lemma andThen_preserved {A} (f : ConfigType.t → A) s1 s2 Config :
  preserves f s2 → f ((s1 >> s2) Config).1 = f (s1 Config).1.
Proof.
  intros H2. unfold andThen. destruct (s1 Config) as [Config1 [e|]]; [done|].
  apply H2.
Qed.






(** ** Directories and extensions *)

(** a loop over a section that returns an error returns it for the first
    key of its order that the [switch] does not know *)
Lemma overrideCase_first a b setA setB
    (sect : ConfigType.t → gmap string string) unrecognized keys :
  (∀ v c, sect (setA v c) = sect c) → (∀ v c, sect (setB v c) = sect c) →
  ∀ Config Config' e,
    (∀ k, k ∈ keys → is_Some (sect Config !! k)) →
    forRange sect (overrideCase a b setA setB unrecognized) keys Config =
      (Config', Some e) →
    ∃ k v,
      firstUnknown (λ j, j = a ∨ j = b) keys k ∧
      sect Config !! k = Some v ∧ e = unrecognized k v.
Proof.
  intros HsetA HsetB. induction keys as [|k keys IH];
    intros Config Config' e Hdom Hrun.
  { unfold forRange, skip in Hrun. by simplify_eq. }
  destruct (Hdom k) as [v Hk]; [apply elem_of_cons; auto|].
  rewrite (forRange_visit _ _ _ _ _ _ Hk) in Hrun.
  apply andThen_inv in Hrun as [(Config1 & H1 & H2)|(e' & H1 & ?)].
  - assert (sect Config1 = sect Config ∧ (k = a ∨ k = b)) as [Hsect Hknown].
    { unfold overrideCase in H1.
      repeat case_decide; unfold assign, returnErr in H1; simplify_eq; auto. }
    destruct (IH Config1 Config' e) as (j & w & Hfirst & Hj & ->); [|done|].
    { intros j Hj. rewrite Hsect. apply Hdom, elem_of_cons. auto. }
    exists j, w. rewrite <- Hsect. split_and!; try done.
    destruct Hfirst as (before & after & -> & Hbefore & Hbad).
    exists (k :: before), after. split_and!; try done.
    by constructor.
  - simplify_eq. unfold overrideCase in H1.
    repeat case_decide; unfold assign, returnErr in H1; simplify_eq.
    exists k, v. split_and!; try done.
    exists [], keys. split_and!; try done. by intros [?|?].
Qed.

Lemma resolveDirectories_first configFilename keys d Config' e :
  rangesOver keys (directoriesOf d) →
  resolveDirectories configFilename keys d = (Config', Some e) →
  ∃ k, firstUnknown recognizedDirectory keys k ∧
       is_Some (directoriesOf d !! k) ∧
       e = UnrecognizedDirectoryKey k configFilename.
Proof.
  intros Hkeys. unfold resolveDirectories, andThen at 1 2, assign. simpl.
  destruct (ConfigType.Directories d) as [dirs|] eqn:Hdirs; [|done].
  intros Hrun.
  apply (overrideCase_first "public" "private"
           ConfigType.setPublicDirectory ConfigType.setPrivateDirectory
           directoriesOf (λ k _, UnrecognizedDirectoryKey k configFilename))
    in Hrun as (k & v & Hfirst & Hk & ->); try done.
  - exists k. split_and!; try done.
  - intros k Hin. by apply (rangesOver_elem _ _ _ Hkeys).
Qed.

Lemma resolveExtensions_first keys d Config' e :
  rangesOver keys (extensionsOf d) →
  resolveExtensions keys (afterDirectories d) = (Config', Some e) →
  ∃ k ext, firstUnknown recognizedExtension keys k ∧
           extensionsOf d !! k = Some ext ∧
           e = UnrecognizedExtensionKey k ext.
Proof.
  intros Hkeys. unfold resolveExtensions, andThen at 1 2, assign. simpl.
  destruct (ConfigType.Extensions d) as [exts|] eqn:Hexts; [|done].
  intros Hrun.
  apply (overrideCase_first "key" "certificate"
           ConfigType.setExtensionKey ConfigType.setExtensionCert
           extensionsOf UnrecognizedExtensionKey)
    in Hrun as (k & v & Hfirst & Hk & ->); try done.
  - by exists k, v.
  - intros k Hin. by apply (rangesOver_elem _ _ _ Hkeys).
Qed.

Section absent.
Variables a b : string.
Variables getA getB : ConfigType.t → string.
Variables setA setB : string → ConfigType.t → ConfigType.t.
Variable sect : ConfigType.t → gmap string string.
Variable unrecognized : string → string → error.
Hypothesis getA_setB : ∀ v c, getA (setB v c) = getA c.
Hypothesis getB_setA : ∀ v c, getB (setA v c) = getB c.
Hypothesis sect_setA : ∀ v c, sect (setA v c) = sect c.
Hypothesis sect_setB : ∀ v c, sect (setB v c) = sect c.

(** a loop over a section leaves the field of a key that the section does
    not have as it found it, whether it returns an error or not *)
Lemma overrideCase_absent keys Config :
  (sect Config !! a = None →
   getA (forRange sect (overrideCase a b setA setB unrecognized) keys Config).1 =
   getA Config) ∧
  (sect Config !! b = None →
   getB (forRange sect (overrideCase a b setA setB unrecognized) keys Config).1 =
   getB Config).
Proof.
  split; intros Habsent.
  - apply (maintains_forRange sect _
             (λ c, sect c = sect Config ∧ getA c = getA Config)); [|done].
    intros k v c Hk [Hsect Hget]. rewrite Hsect in Hk. unfold overrideCase.
    repeat case_decide; unfold assign, returnErr; simpl; simplify_eq;
      rewrite ?sect_setB, ?getA_setB; done.
  - apply (maintains_forRange sect _
             (λ c, sect c = sect Config ∧ getB c = getB Config)); [|done].
    intros k v c Hk [Hsect Hget]. rewrite Hsect in Hk. unfold overrideCase.
    repeat case_decide; unfold assign, returnErr; simpl; simplify_eq;
      rewrite ?sect_setA, ?getB_setA; done.
Qed.
End absent.

Lemma resolveDirectories_unfold configFilename keys d :
  resolveDirectories configFilename keys d =
  match ConfigType.Directories d with
  | Some _ =>
      forRange directoriesOf (directoriesCase configFilename) keys
        (ConfigType.setPrivateDirectory defaultPrivateDirectory
           (ConfigType.setPublicDirectory defaultPublicDirectory d))
  | None =>
      (ConfigType.setPrivateDirectory defaultPrivateDirectory
         (ConfigType.setPublicDirectory defaultPublicDirectory d), None)
  end.
Proof. unfold resolveDirectories, andThen, assign, skip. simpl. done. Qed.

Lemma resolveExtensions_unfold keys c :
  resolveExtensions keys c =
  match ConfigType.Extensions c with
  | Some _ =>
      forRange extensionsOf extensionsCase keys
        (ConfigType.setExtensionCert defaultExtensionCert
           (ConfigType.setExtensionKey defaultExtensionKey c))
  | None =>
      (ConfigType.setExtensionCert defaultExtensionCert
         (ConfigType.setExtensionKey defaultExtensionKey c), None)
  end.
Proof. unfold resolveExtensions, andThen, assign, skip. simpl. done. Qed.

Lemma resolveDirectories_absent configFilename keys d :
  (directoriesOf d !! "public" = None →
   ConfigType.PublicDirectory (resolveDirectories configFilename keys d).1 =
   defaultPublicDirectory) ∧
  (directoriesOf d !! "private" = None →
   ConfigType.PrivateDirectory (resolveDirectories configFilename keys d).1 =
   defaultPrivateDirectory).
Proof.
  rewrite resolveDirectories_unfold.
  destruct (ConfigType.Directories d) as [dirs|] eqn:Hdirs; [|done].
  pose proof (overrideCase_absent "public" "private"
                ConfigType.PublicDirectory ConfigType.PrivateDirectory
                ConfigType.setPublicDirectory ConfigType.setPrivateDirectory
                directoriesOf
                (λ k _, UnrecognizedDirectoryKey k configFilename)
                (λ _ _, eq_refl) (λ _ _, eq_refl) (λ _ _, eq_refl)
                (λ _ _, eq_refl) keys
                (ConfigType.setPrivateDirectory defaultPrivateDirectory
                   (ConfigType.setPublicDirectory defaultPublicDirectory d)))
    as [Hpub Hpriv].
  split; intros Habsent; [by apply Hpub|by apply Hpriv].
Qed.

Lemma resolveExtensions_absent keys d c :
  extensionsOf c = extensionsOf d →
  (extensionsOf d !! "key" = None →
   ConfigType.ExtensionKey (resolveExtensions keys c).1 = defaultExtensionKey) ∧
  (extensionsOf d !! "certificate" = None →
   ConfigType.ExtensionCert (resolveExtensions keys c).1 = defaultExtensionCert).
Proof.
  intros Hsame. rewrite resolveExtensions_unfold.
  destruct (ConfigType.Extensions c) as [exts|] eqn:Hexts; [|done].
  pose proof (overrideCase_absent "key" "certificate"
                ConfigType.ExtensionKey ConfigType.ExtensionCert
                ConfigType.setExtensionKey ConfigType.setExtensionCert
                extensionsOf UnrecognizedExtensionKey
                (λ _ _, eq_refl) (λ _ _, eq_refl) (λ _ _, eq_refl)
                (λ _ _, eq_refl) keys
                (ConfigType.setExtensionCert defaultExtensionCert
                   (ConfigType.setExtensionKey defaultExtensionKey c)))
    as [Hkey Hcert].
  rewrite <- Hsame.
  split; intros Habsent; [by apply Hkey|by apply Hcert].
Qed.

(** the loops over the certificates leave every field of [Config] other
    than the certificates as it is *)
Lemma certificates_preserve {A} (f : ConfigType.t → A) order :
  (∀ k cert c, f (ConfigType.store k cert c) = f c) →
  preserves f
    (forRange ConfigType.Certificates typeAndSubject (inCertificates1 order) >>
     forRange ConfigType.Certificates linkIssuer (inCertificates2 order)).
Proof.
  intros Hstore. apply preserves_andThen.
  - by apply typeAndSubject_preserves.
  - by apply linkIssuer_preserves.
Qed.

Lemma GetConfig_directories configFilename d order Config :
  ConfigType.PublicDirectory (GetConfig configFilename (Parsed d) order Config).1 =
    ConfigType.PublicDirectory
      (resolveDirectories configFilename (inDirectories order) d).1 ∧
  ConfigType.PrivateDirectory (GetConfig configFilename (Parsed d) order Config).1 =
    ConfigType.PrivateDirectory
      (resolveDirectories configFilename (inDirectories order) d).1.
Proof.
  unfold GetConfig.
  pose proof (andThen_preserved
                (λ c, (ConfigType.PublicDirectory c, ConfigType.PrivateDirectory c))
                (resolveDirectories configFilename (inDirectories order))
                (resolveExtensions (inExtensions order) >>
                 forRange ConfigType.Certificates typeAndSubject
                   (inCertificates1 order) >>
                 forRange ConfigType.Certificates linkIssuer
                   (inCertificates2 order)) d) as Hsame.
  simpl in Hsame. apply pair_equal_spec. apply Hsame.
  apply preserves_andThen; [by apply resolveExtensions_preserves|].
  by apply certificates_preserve.
Qed.

Lemma GetConfig_extensions configFilename d order Config :
  rangesOver (inDirectories order) (directoriesOf d) →
  recognizedDirectories d →
  ConfigType.ExtensionKey (GetConfig configFilename (Parsed d) order Config).1 =
    ConfigType.ExtensionKey
      (resolveExtensions (inExtensions order) (afterDirectories d)).1 ∧
  ConfigType.ExtensionCert (GetConfig configFilename (Parsed d) order Config).1 =
    ConfigType.ExtensionCert
      (resolveExtensions (inExtensions order) (afterDirectories d)).1.
Proof.
  intros Hdirs Hrd. unfold GetConfig.
  rewrite (andThen_ok _ _ _ _
             (resolveDirectories_recognized configFilename _ d Hdirs Hrd)).
  pose proof (andThen_preserved
                (λ c, (ConfigType.ExtensionKey c, ConfigType.ExtensionCert c))
                (resolveExtensions (inExtensions order))
                (forRange ConfigType.Certificates typeAndSubject
                   (inCertificates1 order) >>
                 forRange ConfigType.Certificates linkIssuer
                   (inCertificates2 order)) (afterDirectories d)) as Hsame.
  simpl in Hsame. apply pair_equal_spec. apply Hsame.
  by apply certificates_preserve.
Qed.

Lemma GetConfig_first_unrecognized configFilename d order Config k :
  validOrder order d → unrecognizedKey d k →
  (∃ k',
     firstUnknown recognizedDirectory (inDirectories order) k' ∧
     is_Some (directoriesOf d !! k') ∧
     (GetConfig configFilename (Parsed d) order Config).2 =
       Some (UnrecognizedDirectoryKey k' configFilename)) ∨
  (recognizedDirectories d ∧
   ∃ k' ext,
     firstUnknown recognizedExtension (inExtensions order) k' ∧
     extensionsOf d !! k' = Some ext ∧
     (GetConfig configFilename (Parsed d) order Config).2 =
       Some (UnrecognizedExtensionKey k' ext)).
Proof.
  intros (Hdirs & Hexts & _) Hk. unfold GetConfig.
  destruct (resolveDirectories configFilename (inDirectories order) d)
    as [Config1 [e|]] eqn:H1.
  - left. rewrite (andThen_err _ _ _ _ _ H1).
    apply resolveDirectories_first in H1 as (k' & ? & ? & ->); [|done].
    by exists k'.
  - right. pose proof H1 as Hrd.
    apply resolveDirectories_spec in Hrd as (Hrd & _); [|done].
    split; [done|].
    rewrite (resolveDirectories_recognized _ _ _ Hdirs Hrd) in H1.
    injection H1 as <-.
    rewrite (andThen_ok _ _ _ _
               (resolveDirectories_recognized configFilename _ d Hdirs Hrd)).
    destruct (resolveExtensions (inExtensions order) (afterDirectories d))
      as [Config2 [e|]] eqn:H2.
    + rewrite (andThen_err _ _ _ _ _ H2).
      apply resolveExtensions_first in H2 as (k' & ext & ? & ? & ->); [|done].
      by exists k', ext.
    + apply resolveExtensions_spec in H2 as (Hre & _); [|done].
      destruct Hk as [[[v Hv] Hbad]|[[v Hv] Hbad]]; destruct Hbad.
      * by apply (Hrd k v).
      * by apply (Hre k v).
Qed.

(** C9, as the code has it.  When a key under [directories] is not public or
    private, or a key under [extensions] is not key or certificate,
    [GetConfig] returns the error of line 118 or of line 133 for the first
    unrecognized key that its loops visit: the first one of directories in
    the order of the visit when directories has one, and otherwise the first
    one of extensions; it is the key itself when the document has no other.
    A directory whose key the document does not have is left at its default
    (tls, tls/private) by every run; the two extensions get their defaults
    (key, pem) only after the loop over the directories, so that an
    extension whose key the document does not have is left at its default by
    every run on a document whose keys under directories are recognized.  A
    value that the document gives under a recognized key replaces the
    default once the loop over its section has passed: for the directories
    when their keys are all recognized, for the extensions when those of
    both sections are. *)
Theorem sections_are_resolved configFilename d order Config :
  validOrder order d →
  let run := GetConfig configFilename (Parsed d) order Config in
  (∀ k, unrecognizedKey d k →
     ∃ k',
       ((firstUnknown recognizedDirectory (inDirectories order) k' ∧
         run.2 = Some (UnrecognizedDirectoryKey k' configFilename)) ∨
        (recognizedDirectories d ∧
         firstUnknown recognizedExtension (inExtensions order) k' ∧
         ∃ ext, extensionsOf d !! k' = Some ext ∧
                run.2 = Some (UnrecognizedExtensionKey k' ext))) ∧
       unrecognizedKey d k' ∧
       (∀ e, run.2 = Some e → names e k') ∧
       ((∀ j, unrecognizedKey d j → j = k) → k' = k)) ∧
  (directoriesOf d !! "public" = None →
   ConfigType.PublicDirectory run.1 = "tls") ∧
  (directoriesOf d !! "private" = None →
   ConfigType.PrivateDirectory run.1 = "tls/private") ∧
  (recognizedDirectories d →
   ConfigType.PublicDirectory run.1 =
     default "tls" (directoriesOf d !! "public") ∧
   ConfigType.PrivateDirectory run.1 =
     default "tls/private" (directoriesOf d !! "private") ∧
   (extensionsOf d !! "key" = None → ConfigType.ExtensionKey run.1 = "key") ∧
   (extensionsOf d !! "certificate" = None →
    ConfigType.ExtensionCert run.1 = "pem") ∧
   (recognizedExtensions d →
    ConfigType.ExtensionKey run.1 = default "key" (extensionsOf d !! "key") ∧
    ConfigType.ExtensionCert run.1 =
      default "pem" (extensionsOf d !! "certificate"))).
Proof.
  intros Horder run. pose proof Horder as (Hdirs & Hexts & _).
  destruct (GetConfig_directories configFilename d order Config)
    as [Hpub Hpriv].
  split_and!.
  - intros k Hk.
    destruct (GetConfig_first_unrecognized configFilename d order Config k
                Horder Hk)
      as [(k' & Hfirst & Hin & Herr)|(Hrd & k' & ext & Hfirst & Hin & Herr)];
      exists k'.
    + assert (unrecognizedKey d k') as Hbad.
      { left. split; [done|]. by destruct Hfirst as (? & ? & _ & _ & ?). }
      split_and!; [by left|done| |by intros Honly; apply Honly].
      intros e He. unfold run in He. rewrite Herr in He. simplify_eq.
      apply names_UnrecognizedDirectoryKey.
    + assert (unrecognizedKey d k') as Hbad.
      { right. split; [by rewrite Hin|].
        by destruct Hfirst as (? & ? & _ & _ & ?). }
      split_and!; [right; split_and!; try done; by exists ext|done|
                   |by intros Honly; apply Honly].
      intros e He. unfold run in He. rewrite Herr in He. simplify_eq.
      apply names_UnrecognizedExtensionKey.
  - intros Habsent. unfold run. rewrite Hpub.
    by apply resolveDirectories_absent.
  - intros Habsent. unfold run. rewrite Hpriv.
    by apply resolveDirectories_absent.
  - intros Hrd.
    destruct (GetConfig_extensions configFilename d order Config Hdirs Hrd)
      as [Hkey Hcert].
    unfold run. rewrite Hpub, Hpriv, Hkey, Hcert.
    rewrite (resolveDirectories_recognized _ _ _ Hdirs Hrd).
    split_and!; [done|done| | |].
    + intros Habsent.
      by apply (resolveExtensions_absent _ d (afterDirectories d)).
    + intros Habsent.
      by apply (resolveExtensions_absent _ d (afterDirectories d)).
    + intros Hre. by rewrite (resolveExtensions_recognized _ _ Hexts Hre).
Qed.

Lemma sections_are_resolved_witness :
  (∃ k',
     firstUnknown recognizedDirectory ["backup"; "cache"] k' ∧
     (GetConfig "certs.yaml" (Parsed twoBadDirectories)
        (mkOrder ["backup"; "cache"] [] [] []) ConfigType.zero).2 =
       Some (UnrecognizedDirectoryKey k' "certs.yaml") ∧
     names (UnrecognizedDirectoryKey k' "certs.yaml") k') ∧
  (let Config' :=
     (GetConfig "certs.yaml" (Parsed someOverrides)
        (mkOrder ["private"] ["key"] ["root"] ["root"]) ConfigType.zero).1 in
   ConfigType.PublicDirectory Config' = "tls" ∧
   ConfigType.PrivateDirectory Config' = "secret" ∧
   ConfigType.ExtensionKey Config' = "k" ∧
   ConfigType.ExtensionCert Config' = "pem").
Proof.
  split.
  - destruct (sections_are_resolved "certs.yaml" twoBadDirectories
                (mkOrder ["backup"; "cache"] [] [] []) ConfigType.zero)
      as [Herror _].
    { repeat split; by_computation. }
    destruct (Herror "cache")
      as (k' & [[Hfirst Herr]|[Hrd _]] & _ & Hnames & _).
    + left. split; [by eexists|by_computation].
    + exists k'. split_and!; [exact Hfirst|exact Herr|exact (Hnames _ Herr)].
    + exfalso. revert Hrd. by_computation.
  - destruct (sections_are_resolved "certs.yaml" someOverrides
                (mkOrder ["private"] ["key"] ["root"] ["root"]) ConfigType.zero)
      as (_ & Hpub & _ & Hrest).
    { repeat split; by_computation. }
    destruct Hrest as (_ & Hpriv & _ & Hcert & Hext); [by_computation|].
    destruct Hext as [Hkey _]; [by_computation|].
    split_and!.
    + apply Hpub. reflexivity.
    + exact Hpriv.
    + exact Hkey.
    + apply Hcert. reflexivity.
Defined.

(** the claim C9 fails on a document with two unrecognized keys under
    [directories] and no key under [extensions]: the error names the key
    that the loop visits first and not the other, and the extension for keys
    is not set to its default, since line 118 returns before line 123 *)
Lemma unrecognized_key_counterexample :
  let order := mkOrder ["backup"; "cache"] [] [] [] in
  let run :=
    GetConfig "certs.yaml" (Parsed twoBadDirectories) order ConfigType.zero in
  validOrder order twoBadDirectories ∧
  directoriesOf twoBadDirectories !! "cache" = Some "tmp" ∧
  ¬ recognizedDirectory "cache" ∧
  run.2 = Some (UnrecognizedDirectoryKey "backup" "certs.yaml") ∧
  ¬ names (UnrecognizedDirectoryKey "backup" "certs.yaml") "cache" ∧
  extensionsOf twoBadDirectories !! "key" = None ∧
  ConfigType.ExtensionKey run.1 ≠ "key".
Proof.
  intros order run. split_and!.
  - repeat split; by_computation.
  - by vm_compute.
  - by_computation.
  - by vm_compute.
  - intros Hnames%names_contains. by vm_compute in Hnames.
  - by vm_compute.
  - by vm_compute.
Qed.
